(** * pdfannotate: offline-first revision synchronisation

    A shallow embedding of the synchronisation core of the repository:

    - [Backend]: [backend/src/validate.ts], [backend/src/indexDb.ts] and
      the route handlers of [backend/src/index.ts], each run in one
      piece;
    - [Frontend]: [frontend/src/db.ts] (the local store),
      [frontend/src/sync.ts] (the outbox flusher) and the revision
      checks of the document page ([App.tsx]);
    - [Routes]: the route handlers of [backend/src/index.ts] cut at
      their [await]s, and the server running them interleaved.

    JavaScript numbers that hold revisions, sizes and timestamps are
    modelled as [Z]; strings as [string] (one [ascii] per UTF-8 byte);
    the SQLite index and the PDF directory as finite maps.  Storage is
    taken to be reliable: [getDoc], [upsertDoc], [fs.mkdir] and
    [fs.writeFile] do not throw, and [fs.writeFile] writes a file in
    one step. *)

From Stdlib Require Import ZArith String Ascii List Bool Lia Sorted.
From stdpp Require Import gmap strings list pretty.

Local Open Scope string_scope.
Local Open Scope Z_scope.

(** ** JavaScript values that reach the handlers *)

(** A field of a parsed multipart body ([req.body.x]): absent, a string,
    or (for a repeated field) an array of strings. *)
Inductive JsField :=
| JUndefined
| JString (s : string)
| JArray (l : list string).

(** [String(v ?? dflt)] *)
Definition String_or (v : JsField) (dflt : string) : string :=
  match v with
  | JUndefined => dflt
  | JString s => s
  | JArray l => String.concat "," l
  end.

(** A JavaScript number as far as the parsers here can produce one. *)
Inductive JsNum :=
| NaN
| Infinity (negative : bool)
| Num (z : Z).

(** [Number.isFinite] *)
Definition isFinite (n : JsNum) : bool :=
  match n with Num _ => true | _ => false end.

(** Rounding of an integer to the nearest IEEE-754 double (ties to
    even); integers of magnitude below [2^53] are exact. *)
Definition round_to_double (n : Z) : JsNum :=
  let a := Z.abs n in
  if a <? 2 ^ 53 then Num n
  else
    let e := Z.log2 a - 52 in
    let q := Z.shiftr a e in
    let r := Z.land a (Z.ones e) in
    let half := Z.shiftl 1 (e - 1) in
    let q' := if (half <? r) || ((r =? half) && Z.odd q) then q + 1 else q in
    let m := Z.shiftl q' e in
    if 2 ^ 1024 <=? m then Infinity (n <? 0) else Num (Z.sgn n * m).

(** ** [Number.parseInt(s, 10)] *)

(** ASCII members of StrWhiteSpaceChar: TAB, LF, VT, FF, CR, SP. *)
Definition is_js_space (c : ascii) : bool :=
  let n := nat_of_ascii c in
  ((9 <=? n) && (n <=? 13) || (n =? 32))%nat.

Definition digit_of (c : ascii) : option Z :=
  let n := Z.of_nat (nat_of_ascii c) in
  if (48 <=? n) && (n <=? 57) then Some (n - 48) else None.

Fixpoint skip_spaces (s : string) : string :=
  match s with
  | String c s' => if is_js_space c then skip_spaces s' else s
  | EmptyString => s
  end.

(** The longest prefix of decimal digits, read most significant first;
    [None] when no digit has been read. *)
Fixpoint read_digits (acc : option Z) (s : string) : option Z :=
  match s with
  | String c s' =>
      match digit_of c with
      | Some d => read_digits (Some (10 * default 0 acc + d)) s'
      | None => acc
      end
  | EmptyString => acc
  end.

Definition parseInt10 (s : string) : JsNum :=
  let s1 := skip_spaces s in
  let '(neg, s2) :=
    match s1 with
    | String "-" r => (true, r)
    | String "+" r => (false, r)
    | _ => (false, s1)
    end in
  match read_digits None s2 with
  | None => NaN
  | Some m => round_to_double (if neg then - m else m)
  end.

(** ** The document identifier pattern *)

(** The character class [[a-zA-Z0-9_-]]. *)
Definition is_docId_char (c : ascii) : bool :=
  let n := nat_of_ascii c in
  ((97 <=? n) && (n <=? 122) || (65 <=? n) && (n <=? 90)
   || (48 <=? n) && (n <=? 57) || (n =? 95) || (n =? 45))%nat.

Fixpoint all_chars (p : ascii -> bool) (s : string) : bool :=
  match s with
  | EmptyString => true
  | String c s' => p c && all_chars p s'
  end.

(** [/^[a-zA-Z0-9_-]{8,80}$/.test(docId)] *)
Definition docId_regex_test (docId : string) : bool :=
  ((8 <=? String.length docId) && (String.length docId <=? 80))%nat
  && all_chars is_docId_char docId.

Module Backend.

(** ** validate.ts *)

(** An [Error] with the optional [status] property attached to it. *)
Record HttpError := { message : string; err_status : option Z }.

Definition result (A : Type) : Type := A + HttpError.

Definition assertDocId (docId : string) : result unit :=
  if docId_regex_test docId then inl tt
  else inr {| message := "docId invalide"; err_status := Some 400 |}.

(** [typeof v === "string" ? Number.parseInt(v, 10) : Number.NaN], then
    the [Number.isFinite] guard; what passes it is a [Num]. *)
Definition parseIntField (name : string) (v : JsField) : result Z :=
  let n := match v with JString s => parseInt10 s | _ => NaN end in
  let invalid := {| message := "Champ invalide: " ++ name; err_status := Some 400 |} in
  if negb (isFinite n) then inr invalid
  else match n with Num z => inl z | _ => inr invalid end.

(** ** indexDb.ts *)

Record DocRow := {
  docId : string;
  filename : string;
  createdAt : Z;
  updatedAt : Z;
  rev : Z;
  sha256 : string;
  sizeBytes : Z
}.

(** The [docs] table, keyed by its primary key [docId]. *)
Abbreviation IndexDb := (gmap string DocRow).

Definition getDoc (db : IndexDb) (id : string) : option DocRow := db !! id.

(** [INSERT ... ON CONFLICT(docId) DO UPDATE SET filename, updatedAt,
    rev, sha256, sizeBytes]: an existing row keeps its [createdAt]. *)
Definition upsertDoc (db : IndexDb) (row : DocRow) : IndexDb :=
  match db !! docId row with
  | None => <[docId row := row]> db
  | Some old =>
      <[docId row := {| docId := docId old; filename := filename row;
                        createdAt := createdAt old; updatedAt := updatedAt row;
                        rev := rev row; sha256 := sha256 row;
                        sizeBytes := sizeBytes row |}]> db
  end.

(** ** index.ts *)

(** The revision files under [pdfDir]: [latestPdfPath docId rev] is
    [pdfDir/<docId>/rev-<rev>.pdf], kept here as the pair it is built
    from. *)
Definition latestPdfPath (id : string) (r : Z) : string * Z := (id, r).

Abbreviation PdfDir := (gmap (string * Z) (list Byte.byte)).

Record ServerState := { indexDb : IndexDb; pdfs : PdfDir }.

(** [req.file] as multer's memory storage leaves it. *)
Record UploadedFile := { buffer : list Byte.byte; size : Z }.

(** JSON bodies sent by the handlers. *)
Inductive Body :=
| BodyHealth
| BodyError (error : string)
| BodyConflict (error : string) (revServer : Z)
| BodyMeta (id : string) (r : Z) (name : string) (updated : Z)
| BodyFile (content : list Byte.byte)
| BodyCreated (id : string) (revServer : Z) (url : string)
| BodyUpdated (id : string) (revServer : Z).

Record Response := { status : Z; body : Body }.

(** How a route handler ends: it sends a response, hands an error to
    [next], throws synchronously, or (an [async] handler without a
    [try]) returns a rejected promise. *)
Inductive Outcome :=
| Sent (r : Response)
| Next (e : HttpError)
| Thrown (e : HttpError)
| Rejected (e : HttpError).

Section Handlers.

(** [IndexDb.sha256Hex] *)
Variable sha256Hex : list Byte.byte -> string.

(** [app.get("/api/docs/:docId/meta")], a synchronous handler. *)
Definition get_meta (st : ServerState) (param : string) : Outcome :=
  match assertDocId param with
  | inr e => Thrown e
  | inl _ =>
      match getDoc (indexDb st) param with
      | None => Sent {| status := 404; body := BodyError "not_found" |}
      | Some doc =>
          Sent {| status := 200;
                  body := BodyMeta (docId doc) (rev doc) (filename doc) (updatedAt doc) |}
      end
  end.

(** [app.get("/api/docs/:docId/file")], an [async] handler with no
    [try] around [assertDocId], run in one piece. *)
Definition get_file (st : ServerState) (param : string) : Outcome :=
  match assertDocId param with
  | inr e => Rejected e
  | inl _ =>
      match getDoc (indexDb st) param with
      | None => Sent {| status := 404; body := BodyError "not_found" |}
      | Some doc =>
          match pdfs st !! latestPdfPath param (rev doc) with
          | None => Sent {| status := 404; body := BodyError "file_missing" |}
          | Some content => Sent {| status := 200; body := BodyFile content |}
          end
      end
  end.

(** [app.post("/api/docs")] run in one piece, with no other handler
    running at its [await]s ([Routes] has it cut at them); [now] is
    [Date.now()]. *)
Definition post_docs (now : Z) (st : ServerState)
    (b_docId b_filename b_revClient : JsField) (file : option UploadedFile)
    : Outcome * ServerState :=
  let id := String_or b_docId "" in
  let name := String_or b_filename (id ++ ".pdf") in
  match parseIntField "revClient" b_revClient with
  | inr e => (Next e, st)
  | inl revClient =>
      match assertDocId id with
      | inr e => (Next e, st)
      | inl _ =>
          match file with
          | None => (Sent {| status := 400; body := BodyError "missing_file" |}, st)
          | Some f =>
              let existing := getDoc (indexDb st) id in
              let stale :=
                match existing with
                | Some ex => if revClient <=? rev ex then Some (rev ex) else None
                | None => None
                end in
              match stale with
              | Some current =>
                  (Sent {| status := 409; body := BodyConflict "conflict" current |}, st)
              | None =>
                  let revServer := revClient in
                  let files := <[latestPdfPath id revServer := buffer f]> (pdfs st) in
                  let row := {| docId := id; filename := name;
                                createdAt := default now (createdAt <$> existing);
                                updatedAt := now;
                                rev := revServer; sha256 := sha256Hex (buffer f);
                                sizeBytes := size f |} in
                  (Sent {| status := 200; body := BodyCreated id revServer ("/d/" ++ id) |},
                   {| indexDb := upsertDoc (indexDb st) row; pdfs := files |})
              end
          end
      end
  end.

(** [app.put("/api/docs/:docId")], run in one piece as well. *)
Definition put_docs (now : Z) (st : ServerState) (param : string)
    (b_filename b_revClient : JsField) (file : option UploadedFile)
    : Outcome * ServerState :=
  let id := param in
  match assertDocId id with
  | inr e => (Next e, st)
  | inl _ =>
      let name := String_or b_filename (id ++ ".pdf") in
      match parseIntField "revClient" b_revClient with
      | inr e => (Next e, st)
      | inl revClient =>
          match file with
          | None => (Sent {| status := 400; body := BodyError "missing_file" |}, st)
          | Some f =>
              match getDoc (indexDb st) id with
              | None => (Sent {| status := 404; body := BodyError "not_found" |}, st)
              | Some ex =>
                  if revClient <=? rev ex
                  then (Sent {| status := 409; body := BodyConflict "conflict" (rev ex) |}, st)
                  else
                    let revServer := revClient in
                    let files := <[latestPdfPath id revServer := buffer f]> (pdfs st) in
                    let row := {| docId := id; filename := name;
                                  createdAt := createdAt ex; updatedAt := now;
                                  rev := revServer; sha256 := sha256Hex (buffer f);
                                  sizeBytes := size f |} in
                    (Sent {| status := 200; body := BodyUpdated id revServer |},
                     {| indexDb := upsertDoc (indexDb st) row; pdfs := files |})
              end
          end
      end
  end.

End Handlers.

(** The error-handling middleware registered last:
    [status = Number.isFinite(err?.status) ? err.status : 500]. *)
Definition error_handler (e : HttpError) : Response :=
  {| status := default 500 (err_status e); body := BodyError (message e) |}.

(** The major version of the express package the server runs on; the
    manifest that pins it is not part of the sources.  Version 4 does
    not look at the promise an [async] handler returns, version 5
    passes its rejection to the error middleware. *)
Inductive Express := Express4 | Express5.

(** What the client receives: [None] when no response is ever sent. *)
Definition respond (v : Express) (o : Outcome) : option Response :=
  match o with
  | Sent r => Some r
  | Next e | Thrown e => Some (error_handler e)
  | Rejected e =>
      match v with
      | Express4 => None
      | Express5 => Some (error_handler e)
      end
  end.

End Backend.

Module Frontend.

(** ** db.ts

    The local store over IndexedDB.  The module is read in the copy of
    it that the listing [Dockerfile] holds (lines 68 to 273), which has
    every function that [sync.ts] and the document page import except
    [saveDocRevision].  The three object stores are [docs] (key
    [docId]), [blobs] (key [[docId, rev]]) and [outbox] (key [id]). *)

(** The type [DocMeta]. *)
Record DocMeta := {
  docId : string;
  filename : string;
  createdAt : Z;
  updatedAt : Z;
  revLocal : Z;
  revServer : option Z;
  lastSyncedAt : option Z
}.

(** The type [OutboxEntry].  [enqueueUpload] always sets [tries]; the
    flusher reads it with [job.tries ?? 1], so an entry without it is
    representable. *)
Record OutboxJob := {
  id : string;
  job_docId : string;
  rev : Z;
  bytes : list Byte.byte;
  job_createdAt : Z;
  tries : option Z;
  lastError : option string
}.

(** The database: [docs] and [blobs] by their keys, and the entries of
    [outbox] in the order they were first put. *)
Record LocalStore := {
  metas : gmap string DocMeta;
  blobs : gmap (string * Z) (list Byte.byte);
  outbox : list OutboxJob
}.

(** The [base] of [upsertDocMeta] for a document without metadata. *)
Definition default_meta (now : Z) (i : string) : DocMeta :=
  {| docId := i; filename := i ++ ".pdf"; createdAt := now; updatedAt := now;
     revLocal := 0; revServer := None; lastSyncedAt := None |}.

(** [upsertDocMeta(docId, fn)]: [ensureDocId] throws on an identifier
    that fails the pattern; otherwise [fn] is applied to the metadata
    stored (or to the default), and the result is put and returned.
    An exception is represented by its message. *)
Definition upsertDocMeta (now : Z) (st : LocalStore) (i : string)
    (mutator : DocMeta -> DocMeta) : (DocMeta * LocalStore) + string :=
  if docId_regex_test i then
    let m := mutator (default (default_meta now i) (metas st !! i)) in
    inl (m, {| metas := <[i := m]> (metas st); blobs := blobs st; outbox := outbox st |})
  else inr "docId invalide.".

(** The order of the keys of [outbox]: IndexedDB compares strings code
    unit by code unit, which on the ASCII job ids of valid documents is
    the order of their bytes. *)
Definition key_le (a b : OutboxJob) : bool := String.leb (id a) (id b).

(** The comparator of [all.sort((a, b) => a.createdAt - b.createdAt)]:
    [a] stays before [b] unless the difference is positive. *)
Definition created_le (a b : OutboxJob) : bool := job_createdAt a <=? job_createdAt b.

(** A stable sort: an element is inserted before the first element
    that it does not come after, so elements that compare equal keep
    the order they had ([Array.prototype.sort] is stable). *)
Fixpoint insert_job (le : OutboxJob -> OutboxJob -> bool) (j : OutboxJob)
    (l : list OutboxJob) : list OutboxJob :=
  match l with
  | [] => [j]
  | k :: l' => if le j k then j :: k :: l' else k :: insert_job le j l'
  end.

Fixpoint sort_jobs (le : OutboxJob -> OutboxJob -> bool) (l : list OutboxJob)
    : list OutboxJob :=
  match l with
  | [] => []
  | j :: l' => insert_job le j (sort_jobs le l')
  end.

(** [db.getAll("outbox")]: the entries in the order of their keys. *)
Definition getAll (st : LocalStore) : list OutboxJob := sort_jobs key_le (outbox st).

(** [listOutbox()]: [getAll] sorted by [createdAt]; entries created in
    the same millisecond stay in key order. *)
Definition listOutbox (st : LocalStore) : list OutboxJob :=
  sort_jobs created_le (getAll st).

Definition with_outbox (st : LocalStore) (l : list OutboxJob) : LocalStore :=
  {| metas := metas st; blobs := blobs st; outbox := l |}.

(** [removeOutbox(id)] *)
Definition removeOutbox (st : LocalStore) (i : string) : LocalStore :=
  with_outbox st (filter (fun j => id j ≠ i) (outbox st)).

(** [{ ...job, tries: job.tries + 1, lastError: error }] *)
Definition bump (msg : string) (j : OutboxJob) : OutboxJob :=
  {| id := id j; job_docId := job_docId j; rev := rev j; bytes := bytes j;
     job_createdAt := job_createdAt j;
     tries := Some (default 0 (tries j) + 1); lastError := Some msg |}.

Definition bump_if (i msg : string) (j : OutboxJob) : OutboxJob :=
  if decide (id j = i) then bump msg j else j.

(** [bumpOutboxTry(id, error)]: nothing happens if there is no such
    entry. *)
Definition bumpOutboxTry (st : LocalStore) (i : string) (msg : string) : LocalStore :=
  with_outbox st (bump_if i msg <$> outbox st).

(** [enqueueUpload({docId, rev, bytes})] at [Date.now() = now]: a no-op
    if an entry with the id [docId + ":" + rev] exists. *)
Definition enqueueUpload (now : Z) (st : LocalStore) (i : string) (r : Z)
    (content : list Byte.byte) : LocalStore :=
  let jid := i ++ ":" ++ pretty r in
  if decide (jid ∈ id <$> outbox st) then st
  else with_outbox st ((outbox st ++
         [{| id := jid; job_docId := i; rev := r; bytes := content;
             job_createdAt := now; tries := Some 0; lastError := None |}])%list).

(** [clearOutboxForDoc(docId, upToRev)] *)
Definition clearOutboxForDoc (st : LocalStore) (i : string) (upToRev : Z) : LocalStore :=
  with_outbox st (filter (fun j => ¬ (job_docId j = i ∧ rev j ≤ upToRev)) (outbox st)).

(** [getDocBlobLatest(docId)]: the blob of [meta.revLocal], [null] if
    the metadata or the blob is missing.  It throws on an invalid
    [docId]; every caller modelled here either calls [upsertDocMeta]
    for the same [docId] next, which throws the same error, or comes
    after an [addDocFromDrop] that checked it. *)
Definition getDocBlobLatest (st : LocalStore) (i : string) : option (list Byte.byte) :=
  m ← metas st !! i; blobs st !! (i, revLocal m).

(** [addDocFromDrop({docId, file, rev, fromServer})] at
    [Date.now() = now], for a file called [name] with the bytes
    [content]: the metadata take the file's name if it has one, the
    time and the greater of [revLocal] and [rev] (and, from the server,
    [revServer] and [lastSyncedAt]); the blob is put under
    [[docId, rev]]; then the document's entries up to [rev] leave the
    outbox, or an upload of [rev] is enqueued. *)
Definition addDocFromDrop (now : Z) (st : LocalStore) (i : string) (name : string)
    (content : list Byte.byte) (r : Z) (fromServer : bool) : LocalStore + string :=
  match upsertDocMeta now st i (fun m =>
          {| docId := docId m;
             filename := if decide (name = "") then filename m else name;
             createdAt := createdAt m;
             updatedAt := now; revLocal := Z.max (revLocal m) r;
             revServer := if fromServer then Some r else revServer m;
             lastSyncedAt := if fromServer then Some now else lastSyncedAt m |}) with
  | inr msg => inr msg
  | inl (_, st1) =>
      let st2 := {| metas := metas st1; blobs := <[(i, r) := content]> (blobs st1);
                    outbox := outbox st1 |} in
      if fromServer then inl (clearOutboxForDoc st2 i r)
      else inl (enqueueUpload now st2 i r content)
  end.

(** ** The browser environment *)

Inductive Method := POST | PUT.

(** The multipart form that [uploadOne] fills in. *)
Record FormData := {
  fd_docId : string;
  fd_filename : string;
  fd_revClient : string;
  fd_file : list Byte.byte;
  fd_file_name : string
}.

Record Request := { method : Method; url : string; form : FormData }.

(** What the flusher reads of a response: the status, [res.text()],
    and [res.json()]: [inl r] is a JSON body whose [revServer] property
    is [r], [inr msg] a body that does not parse. *)
Record HttpResponse := {
  res_status : Z;
  res_text : string;
  res_json : option Z + string
}.

(** [res.ok] *)
Definition res_ok (res : HttpResponse) : bool :=
  (200 <=? res_status res) && (res_status res <=? 299).

(** [fetch] resolves with a response or rejects with an error. *)
Inductive FetchResult :=
| FetchError (msg : string)
| FetchOk (res : HttpResponse).

(** The environment, read at successive instants: [navigator.onLine],
    the outcome of a [fetch], and [Date.now()].  The instant advances
    with every reading of [onLine] and every [fetch]. *)
Record World := {
  onLine : nat -> bool;
  fetch : nat -> Request -> FetchResult;
  clock : nat -> Z
}.

(** [encodeURIComponent] on the UTF-8 bytes of a string. *)
Definition is_uri_unreserved (c : ascii) : bool :=
  let n := nat_of_ascii c in
  ((97 <=? n) && (n <=? 122) || (65 <=? n) && (n <=? 90)
   || (48 <=? n) && (n <=? 57)
   || (n =? 45) || (n =? 95) || (n =? 46) || (n =? 33) || (n =? 126)
   || (n =? 42) || (n =? 39) || (n =? 40) || (n =? 41))%nat.

Definition hex_digit (n : nat) : ascii :=
  default "0"%char (String.get n "0123456789ABCDEF").

Fixpoint encodeURIComponent (s : string) : string :=
  match s with
  | EmptyString => EmptyString
  | String c s' =>
      if is_uri_unreserved c then String c (encodeURIComponent s')
      else
        let n := nat_of_ascii c in
        String "%" (String (hex_digit (n / 16)) (String (hex_digit (n mod 16))
          (encodeURIComponent s')))
  end.

(** ** sync.ts *)

(** The calls the flusher makes to its collaborators, in order.
    [EvAttempt job] marks [const job = jobs[0]]. *)
Inductive Event :=
| EvNotify (syncing : bool) (pending : nat)
| EvAttempt (job : OutboxJob)
| EvFetch (req : Request)
| EvRemoveOutbox (jid : string)
| EvBumpOutboxTry (jid : string) (msg : string)
| EvSleep (ms : Z).

(** [notifySyncChange(syncing, pending)] *)
Definition notifySyncChange (syncing : bool) (pending : nat) : Event :=
  EvNotify syncing pending.

(** [meta?.revServer !== undefined && meta.revServer > 0] *)
Definition existsOnServer (meta : option DocMeta) : bool :=
  match meta ≫= revServer with
  | Some r => 0 <? r
  | None => false
  end.

(** The form, method and url that [uploadOne] passes to [fetch];
    [String(job.rev)] is the decimal numeral of the revision. *)
Definition upload_request (job : OutboxJob) (meta : option DocMeta) : Request :=
  let name := default (job_docId job ++ ".pdf") (filename <$> meta) in
  {| method := if existsOnServer meta then PUT else POST;
     url := if existsOnServer meta
            then "/api/docs/" ++ encodeURIComponent (job_docId job)
            else "/api/docs";
     form := {| fd_docId := job_docId job; fd_filename := name;
                fd_revClient := pretty (rev job); fd_file := bytes job;
                fd_file_name := name |} |}.

(** [uploadOne(job, meta)] at instant [t]: the events, the next
    instant, the store, and the message of the error thrown, if any. *)
Definition uploadOne (w : World) (t : nat) (st : LocalStore)
    (job : OutboxJob) (meta : option DocMeta)
    : list Event * nat * LocalStore * option string :=
  let req := upload_request job meta in
  match fetch w t req with
  | FetchError msg => ([EvFetch req], S t, st, Some msg)
  | FetchOk res =>
      if res_status res =? 409 then
        let shown := match res_json res with inl (Some r) => pretty r | _ => "?" end in
        ([EvFetch req], S t, st, Some ("Conflit serveur (409). revServer=" ++ shown))
      else if negb (res_ok res) then
        ([EvFetch req], S t, st,
         Some ("HTTP " ++ pretty (res_status res) ++ " " ++ res_text res))
      else
        match res_json res with
        | inr msg => ([EvFetch req], S t, st, Some msg)
        | inl r =>
            let now := clock w (S t) in
            match upsertDocMeta now st (job_docId job) (fun m =>
                    {| docId := docId m; filename := filename m;
                       createdAt := createdAt m; updatedAt := updatedAt m;
                       revLocal := revLocal m;
                       revServer := r; lastSyncedAt := Some now |}) with
            | inl (_, st') => ([EvFetch req], S t, st', None)
            | inr msg => ([EvFetch req], S t, st, Some msg)
            end
        end
  end.

(** [250 * 2 ** Math.min(6, Math.max(1, job.tries ?? 1))] *)
Definition backoff (job : OutboxJob) : Z :=
  250 * 2 ^ Z.min 6 (Z.max 1 (default 1 (tries job))).

(** The [try] / [catch] of the loop body for [job = jobs[0]]. *)
Definition attempt (w : World) (t : nat) (st : LocalStore) (job : OutboxJob)
    : list Event * nat * LocalStore :=
  let '(evs, t1, st1, err) :=
    match upsertDocMeta (clock w t) st (job_docId job) (fun m => m) with
    | inr msg => ([], t, st, Some msg)
    | inl (meta, st0) =>
        let '(evs, t1, st1, err) := uploadOne w t st0 job (Some meta) in
        match err with
        | Some msg => (evs, t1, st1, Some msg)
        | None => ((evs ++ [EvRemoveOutbox (id job)])%list, t1, removeOutbox st1 (id job), None)
        end
    end in
  match err with
  | None => (EvAttempt job :: evs, t1, st1)
  | Some msg =>
      (EvAttempt job :: (evs ++ [EvBumpOutboxTry (id job) msg; EvSleep (backoff job)])%list,
       t1, bumpOutboxTry st1 (id job) msg)
  end.

(** [while (jobs.length > 0 && navigator.onLine) { ... }].  The loop
    need not end (a job may fail forever), so it runs on [fuel]:
    [None] means the fuel ran out before the loop was left. *)
Fixpoint drain (fuel : nat) (w : World) (t : nat) (st : LocalStore)
    (jobs : list OutboxJob) : option (list Event * nat * LocalStore) :=
  match jobs with
  | [] => Some ([], t, st)
  | job :: _ =>
      if onLine w t then
        match fuel with
        | O => None
        | S fuel' =>
            let '(evs, t1, st1) := attempt w (S t) st job in
            let jobs' := listOutbox st1 in
            match drain fuel' w t1 st1 jobs' with
            | Some (evs', t2, st2) =>
                Some ((evs ++ notifySyncChange true (length jobs') :: evs')%list, t2, st2)
            | None => None
            end
        end
      else Some ([], S t, st)
  end.

(** The module variables [flushing] and [flushQueued]. *)
Record Flags := { flushing : bool; flushQueued : bool }.

(** Where a call of [flushOutbox] goes before its first [await]. *)
Inductive Entry := Queued | Offline | Drains.

Definition flushOutbox_enter (online : bool) (f : Flags) : Entry * Flags :=
  if flushing f then (Queued, {| flushing := flushing f; flushQueued := true |})
  else if negb online then (Offline, f)
  else (Drains, {| flushing := true; flushQueued := false |}).

(** The [finally] block: the flags it leaves, and whether it calls
    [flushOutbox] again. *)
Definition flushOutbox_finally (f : Flags) : bool * Flags :=
  (flushQueued f, {| flushing := false; flushQueued := flushQueued f |}).

(** One call of [flushOutbox] that nothing interleaves with, run up to
    its [finally] block. *)
Definition flushOutbox (fuel : nat) (w : World) (t : nat) (f : Flags)
    (st : LocalStore) : option (list Event * nat * Flags * LocalStore * bool) :=
  match flushOutbox_enter (onLine w t) f with
  | (Queued, f') => Some ([], t, f', st, false)
  | (Offline, f') =>
      Some ([notifySyncChange false (length (listOutbox st))], S t, f', st, false)
  | (Drains, f') =>
      let jobs := listOutbox st in
      match drain fuel w (S t) st jobs with
      | None => None
      | Some (evs, t', st') =>
          let '(again, f'') := flushOutbox_finally f' in
          Some (notifySyncChange true (length jobs) :: (evs ++ [notifySyncChange false 0])%list,
                t', f'', st', again)
      end
  end.

(** A job of the outbox, recognised by its id and creation time. *)
Definition queued (st : LocalStore) (a : OutboxJob) : Prop :=
  exists a0, a0 ∈ outbox st /\ id a0 = id a /\ job_createdAt a0 = job_createdAt a.



(** The two ways a pass of the loop body can go. *)
Inductive attempt_result (st : LocalStore) (job : OutboxJob)
    : list Event -> LocalStore -> Prop :=
| attempt_uploaded (req : Request) (st1 : LocalStore) :
    outbox st1 = filter (fun j => id j ≠ id job) (outbox st) ->
    attempt_result st job [EvAttempt job; EvFetch req; EvRemoveOutbox (id job)] st1
| attempt_failed (sent : list Event) (msg : string) (st1 : LocalStore) :
    sent = [] \/ (exists req, sent = [EvFetch req]) ->
    outbox st1 = bump_if (id job) msg <$> outbox st ->
    listOutbox st1 = bump_if (id job) msg <$> listOutbox st ->
    attempt_result st job
      (EvAttempt job :: sent ++ [EvBumpOutboxTry (id job) msg; EvSleep (backoff job)]) st1.

(** *** Calls of [flushOutbox] that interleave

    JavaScript runs the code between two [await]s without interruption.
    A call of [flushOutbox] therefore enters atomically
    ([flushOutbox_enter]); a call that reached the [try] block is a
    drain in flight until it leaves the block and runs its [finally],
    which is atomic as well, together with the entry of the call it
    makes.  [draining] counts the drain loops in flight, [reporting]
    the calls suspended in the offline branch. *)

Record Flusher := { flags : Flags; draining : nat; reporting : nat }.

Inductive Step :=
| Call (online : bool)
| Resume
| ReportEnds
| DrainEnds (online : bool).

(** A call of [flushOutbox()] while [navigator.onLine = online]. *)
Definition call (online : bool) (s : Flusher) : Flusher :=
  match flushOutbox_enter online (flags s) with
  | (Queued, f) => {| flags := f; draining := draining s; reporting := reporting s |}
  | (Offline, f) => {| flags := f; draining := draining s; reporting := S (reporting s) |}
  | (Drains, f) => {| flags := f; draining := S (draining s); reporting := reporting s |}
  end.

(** One step of the scheduler, with the number of calls of
    [flushOutbox] that a [finally] block made in it; [None] when there
    is no task of the kind to resume. *)
Definition step (s : Flusher) (e : Step) : option (Flusher * nat) :=
  match e with
  | Call online => Some (call online s, O)
  | Resume => match draining s with O => None | S _ => Some (s, O) end
  | ReportEnds =>
      match reporting s with
      | O => None
      | S n => Some ({| flags := flags s; draining := draining s; reporting := n |}, O)
      end
  | DrainEnds online =>
      match draining s with
      | O => None
      | S n =>
          let '(again, f) := flushOutbox_finally (flags s) in
          let s1 := {| flags := f; draining := n; reporting := reporting s |} in
          if again then Some (call online s1, 1%nat) else Some (s1, O)
      end
  end.

Fixpoint run (s : Flusher) (es : list Step) : option (Flusher * nat) :=
  match es with
  | [] => Some (s, O)
  | e :: es' =>
      '(s1, n1) ← step s e;
      '(s2, n2) ← run s1 es';
      Some (s2, (n1 + n2)%nat)
  end.

(** The module as loaded: [flushing = false], [flushQueued = false]. *)
Definition idle : Flusher :=
  {| flags := {| flushing := false; flushQueued := false |};
     draining := O; reporting := O |}.

Definition is_call (e : Step) : bool :=
  match e with Call _ => true | _ => false end.

(** The steps that end no task: calls, and a drain going on. *)
Definition ends_nothing (e : Step) : bool :=
  match e with Call _ | Resume => true | _ => false end.

(** There is a drain in flight exactly when [flushing] is set. *)
Definition one_drain (s : Flusher) : Prop :=
  draining s = if flushing (flags s) then 1%nat else O.

(** ** App.tsx: the document page *)

Record ServerMeta := { sm_filename : string; sm_rev : Z }.

Record ConflictInfo := { serverRev : Z; serverFilename : string }.

Inductive Mode := local | stable.

(** The state setters and collaborators the page calls, in order. *)
Inductive UiEvent :=
| SetStatus (s : string)
| SetRevServer (r : option Z)
| SetRevLocal (r : Z)
| SetFilename (s : string)
| SetObjectUrl (blob : list Byte.byte)
| SetConflict (c : option ConflictInfo)
| SetCheckingUpdate (b : bool)
| Ingest (i : string) (r : Z) (fromServer : bool)
| FlushOutbox.

(** The outcome of [fetch("/api/docs/<id>/meta")] and of
    [fetch("/api/docs/<id>/file")]: a rejection, or a status with the
    body ([None]: the meta body does not parse). *)
Inductive MetaRes :=
| MetaFailed
| MetaStatus (st : Z) (json : option ServerMeta).

Inductive FileRes :=
| FileFailed
| FileStatus (st : Z) (blob : list Byte.byte).

Record PageEnv := {
  page_onLine : bool;
  meta_res : MetaRes;
  file_res : FileRes;
  page_now : Z;
  (** the flag [cancelled] at the successive tests of it in [load] *)
  cancelled : nat -> bool
}.

Definition http_ok (st : Z) : bool := (200 <=? st) && (st <=? 299).

(** [reloadViewer] *)
Definition reloadViewer (st : LocalStore) (i : string) : list UiEvent :=
  match getDocBlobLatest st i with
  | Some blob => [SetObjectUrl blob]
  | None => []
  end.

(** [downloadServerVersion(serverMeta)]: [None] in place of the store
    when it throws. *)
Definition downloadServerVersion (env : PageEnv) (st : LocalStore) (i : string)
    (serverMeta : ServerMeta) : list UiEvent * option LocalStore :=
  match file_res env with
  | FileFailed => ([], None)
  | FileStatus code blob =>
      if negb (http_ok code) then ([], None)
      else
        match addDocFromDrop (page_now env) st i (sm_filename serverMeta) blob
                (sm_rev serverMeta) true with
        | inr _ => ([], None)
        | inl st' =>
            (Ingest i (sm_rev serverMeta) true
               :: SetRevLocal (sm_rev serverMeta)
               :: SetRevServer (Some (sm_rev serverMeta))
               :: SetFilename (sm_filename serverMeta)
               :: reloadViewer st' i,
             Some st')
        end
  end.

(** What the sync module has done when a call of [flushOutbox] that
    the page awaits resolves: its notifications and requests, the
    instant, the module variables, the store, and whether the [finally]
    block called [flushOutbox] again. *)
Definition Flushed : Type := list Event * nat * Flags * LocalStore * bool.

(** The same when the page does not call [flushOutbox]. *)
Definition not_flushed (t : nat) (f : Flags) (st : LocalStore) : Flushed :=
  ([], t, f, st, false).

(** [checkForUpdate(autoResolve)], with the page state [revLocal] and
    [checkingUpdate] that its closure reads, at instant [t] of the sync
    module whose variables are [f].  The setters called, and what
    [await flushOutbox()] or the download left; [None] when the flush
    awaited does not end within [fuel] passes of its loop. *)
Definition checkForUpdate (fuel : nat) (w : World) (t : nat) (f : Flags)
    (env : PageEnv) (st : LocalStore) (i : string)
    (revLocal : Z) (checkingUpdate : bool) (autoResolve : bool)
    : option (list UiEvent * Flushed) :=
  if negb (page_onLine env) || checkingUpdate then Some ([], not_flushed t f st)
  else
    '(evs, flushed) ←
      match meta_res env with
      | MetaFailed => Some ([SetStatus "Erreur de connexion."], not_flushed t f st)
      | MetaStatus code json =>
          if negb (http_ok code) then
            if code =? 404
            then Some ([SetRevServer None; SetStatus "Document pas encore sur le serveur."],
                       not_flushed t f st)
            else Some ([SetStatus "Erreur serveur."], not_flushed t f st)
          else
            match json with
            | None => Some ([SetStatus "Erreur de connexion."], not_flushed t f st)
            | Some serverMeta =>
                let r := sm_rev serverMeta in
                if revLocal <? r then
                  if autoResolve then
                    match downloadServerVersion env st i serverMeta with
                    | (evs, Some st') =>
                        Some (SetRevServer (Some r)
                                :: SetStatus ("Téléchargement (rev " ++ pretty r ++ ")…")
                                :: evs ++ [SetStatus ("Mis à jour vers rev " ++ pretty r ++ ".")],
                              not_flushed t f st')
                    | (evs, None) =>
                        Some (SetRevServer (Some r)
                                :: SetStatus ("Téléchargement (rev " ++ pretty r ++ ")…")
                                :: evs ++ [SetStatus "Erreur de connexion."],
                              not_flushed t f st)
                    end
                  else
                    Some ([SetRevServer (Some r);
                           SetConflict (Some {| serverRev := r;
                                                serverFilename := sm_filename serverMeta |});
                           SetStatus ("Conflit: serveur a rev " ++ pretty r
                                      ++ ", vous avez rev " ++ pretty revLocal ++ ".")],
                          not_flushed t f st)
                else if r =? revLocal then
                  Some ([SetRevServer (Some r);
                         SetStatus ("À jour (rev " ++ pretty revLocal ++ ").")],
                        not_flushed t f st)
                else
                  flushed ← flushOutbox fuel w t f st;
                  Some ([SetRevServer (Some r); SetStatus "Envoi vers le serveur…";
                         FlushOutbox; SetStatus "Synchronisé."], flushed)
            end
      end;
    Some (SetCheckingUpdate true :: evs ++ [SetCheckingUpdate false], flushed).

(** [fetchMetaSafe]: the server meta, or [null] on any failure. *)
Definition fetchMetaSafe (env : PageEnv) : option ServerMeta :=
  match meta_res env with
  | MetaFailed => None
  | MetaStatus code json => if http_ok code then json else None
  end.

(** The last lines of [load], reached when no copy could be shown. *)
Definition load_not_found (env : PageEnv) (mode : Mode) : list UiEvent :=
  if cancelled env 5 then []
  else [SetStatus match mode with
                  | stable => "PDF introuvable (hors-ligne, aucune copie locale)."
                  | local => "PDF introuvable localement."
                  end].

(** The [catch] of the download in [load]. *)
Definition load_download_failed (env : PageEnv) (mode : Mode) : list UiEvent :=
  match mode with
  | stable => [SetStatus "Erreur de connexion au serveur."]
  | local => load_not_found env mode
  end.

(** [load()] of the effect that runs when the page opens a document. *)
Definition load (env : PageEnv) (mode : Mode) (st : LocalStore) (i : string)
    : list UiEvent * LocalStore :=
  let loc := getDocBlobLatest st i in
  match upsertDocMeta (page_now env) st i (fun m => m) with
  | inr _ => ([SetStatus "Chargement…"], st)
  | inl (localMeta, st0) =>
      if cancelled env 0 then ([SetStatus "Chargement…"], st0)
      else
        match loc with
        | Some blob =>
            (* a local copy: shown at once, the server asked in the background *)
            let shown := [SetStatus "Chargement…"; SetFilename (filename localMeta);
                          SetRevLocal (revLocal localMeta); SetObjectUrl blob;
                          SetStatus "Prêt."] in
            if page_onLine env then
              match fetchMetaSafe env with
              | Some serverMeta =>
                  if cancelled env 1 then (shown, st0)
                  else if revLocal localMeta <? sm_rev serverMeta then
                    ((shown ++ [SetRevServer (Some (sm_rev serverMeta));
                               SetConflict (Some {| serverRev := sm_rev serverMeta;
                                                    serverFilename := sm_filename serverMeta |})])%list,
                     st0)
                  else ((shown ++ [SetRevServer (Some (sm_rev serverMeta))])%list, st0)
              | None => (shown, st0)
              end
            else (shown, st0)
        | None =>
            (* no local copy: try the server *)
            if page_onLine env then
              if cancelled env 2 then ([SetStatus "Chargement…"], st0)
              else
              match fetchMetaSafe env with
              | Some serverMeta =>
                    let asked := [SetStatus "Chargement…";
                                  SetRevServer (Some (sm_rev serverMeta));
                                  SetStatus "Téléchargement depuis le serveur…"] in
                    match file_res env with
                    | FileFailed => ((asked ++ load_download_failed env mode)%list, st0)
                    | FileStatus code blob =>
                        if http_ok code then
                          if cancelled env 3 then (asked, st0)
                          else
                            match addDocFromDrop (page_now env) st0 i
                                    (sm_filename serverMeta) blob
                                    (sm_rev serverMeta) true with
                            | inr _ => ((asked ++ load_download_failed env mode)%list, st0)
                            | inl st1 =>
                                let ingested := (asked ++ [Ingest i (sm_rev serverMeta) true])%list in
                                match upsertDocMeta (page_now env) st1 i (fun m => m) with
                                | inr _ => ((ingested ++ load_download_failed env mode)%list, st1)
                                | inl (newMeta, st2) =>
                                    if cancelled env 4 then (ingested, st2)
                                    else
                                      match getDocBlobLatest st1 i with
                                      | Some newLocal =>
                                          ((ingested ++
                                             [SetFilename (filename newMeta);
                                              SetRevLocal (revLocal newMeta);
                                              SetObjectUrl newLocal;
                                              SetStatus "Prêt."])%list,
                                           st2)
                                      | None => ((ingested ++ load_not_found env mode)%list, st2)
                                      end
                                end
                            end
                        else
                          match mode with
                          | stable =>
                              ((asked ++ [SetStatus ("Document introuvable sur le serveur (HTTP "
                                                    ++ pretty code ++ ").")])%list, st0)
                          | local => ((asked ++ load_not_found env mode)%list, st0)
                          end
                    end
              | None =>
                  match mode with
                  | stable =>
                      ([SetStatus "Chargement…";
                        SetStatus "Document introuvable ou hors-ligne."], st0)
                  | local => (SetStatus "Chargement…" :: load_not_found env mode, st0)
                  end
              end
            else (SetStatus "Chargement…" :: load_not_found env mode, st0)
        end
  end.

End Frontend.

(** ** index.ts: the routes of the API, handler by handler

    Node runs the code between two [await]s without interruption and
    may run any other handler at an [await].  The upload handlers await
    [fs.mkdir] and [fs.writeFile] between their check against the index
    and their [upsertDoc]; GET .../file awaits [fs.access] between its
    lookup and its answer.  A handler is therefore cut at its [await]s
    into segments, and the server runs the segments of the requests in
    flight in any order. *)

Module Routes.
Import Backend.

(** A request to one of the API routes, as the handlers receive it
    (the multipart body already parsed). *)
Inductive ApiRequest :=
| GetHealth
| GetMeta (param : string)
| GetFile (param : string)
| PostDocs (b_docId b_filename b_revClient : JsField) (file : option UploadedFile)
| PutDocs (param : string) (b_filename b_revClient : JsField)
    (file : option UploadedFile).

(** The local variables of an upload handler that is past its check:
    [docId], [filename], [revServer], [file], [existing], the body it
    will send, and whether [fs.writeFile] has resolved. *)
Record Upload := {
  up_docId : string;
  up_filename : string;
  up_revServer : Z;
  up_file : UploadedFile;
  up_existing : option DocRow;
  up_body : Body;
  up_written : bool
}.

Section Serve.

Variable sha256Hex : list Byte.byte -> string.

(** [app.get("/api/health")] *)
Definition get_health : Outcome := Sent {| status := 200; body := BodyHealth |}.

(** [app.post("/api/docs")] up to [await fs.mkdir]: the handler ends
    there, or goes on as an upload. *)
Definition post_docs_check (st : ServerState)
    (b_docId b_filename b_revClient : JsField) (file : option UploadedFile)
    : Outcome + Upload :=
  let id := String_or b_docId "" in
  let name := String_or b_filename (id ++ ".pdf") in
  match parseIntField "revClient" b_revClient with
  | inr e => inl (Next e)
  | inl revClient =>
      match assertDocId id with
      | inr e => inl (Next e)
      | inl _ =>
          match file with
          | None => inl (Sent {| status := 400; body := BodyError "missing_file" |})
          | Some f =>
              let existing := getDoc (indexDb st) id in
              let stale :=
                match existing with
                | Some ex => if revClient <=? rev ex then Some (rev ex) else None
                | None => None
                end in
              match stale with
              | Some current =>
                  inl (Sent {| status := 409; body := BodyConflict "conflict" current |})
              | None =>
                  inr {| up_docId := id; up_filename := name; up_revServer := revClient;
                         up_file := f; up_existing := existing;
                         up_body := BodyCreated id revClient ("/d/" ++ id);
                         up_written := false |}
              end
          end
      end
  end.

(** [app.put("/api/docs/:docId")] up to [await fs.mkdir]. *)
Definition put_docs_check (st : ServerState) (param : string)
    (b_filename b_revClient : JsField) (file : option UploadedFile)
    : Outcome + Upload :=
  let id := param in
  match assertDocId id with
  | inr e => inl (Next e)
  | inl _ =>
      let name := String_or b_filename (id ++ ".pdf") in
      match parseIntField "revClient" b_revClient with
      | inr e => inl (Next e)
      | inl revClient =>
          match file with
          | None => inl (Sent {| status := 400; body := BodyError "missing_file" |})
          | Some f =>
              match getDoc (indexDb st) id with
              | None => inl (Sent {| status := 404; body := BodyError "not_found" |})
              | Some ex =>
                  if revClient <=? rev ex
                  then inl (Sent {| status := 409; body := BodyConflict "conflict" (rev ex) |})
                  else
                    inr {| up_docId := id; up_filename := name; up_revServer := revClient;
                           up_file := f; up_existing := Some ex;
                           up_body := BodyUpdated id revClient;
                           up_written := false |}
              end
          end
      end
  end.

(** [await fs.writeFile(target, file.buffer)] takes effect. *)
Definition upload_write (st : ServerState) (u : Upload) : ServerState :=
  {| indexDb := indexDb st;
     pdfs := <[latestPdfPath (up_docId u) (up_revServer u) := buffer (up_file u)]> (pdfs st) |}.

(** An upload handler from the end of [fs.writeFile] on, at
    [Date.now() = now]: [upsertDoc] with the [createdAt] of the row
    read before the write, then the answer. *)
Definition upload_commit (now : Z) (st : ServerState) (u : Upload)
    : Outcome * ServerState :=
  let row := {| docId := up_docId u; filename := up_filename u;
                createdAt := default now (createdAt <$> up_existing u);
                updatedAt := now;
                rev := up_revServer u; sha256 := sha256Hex (buffer (up_file u));
                sizeBytes := size (up_file u) |} in
  (Sent {| status := 200; body := up_body u |},
   {| indexDb := upsertDoc (indexDb st) row; pdfs := pdfs st |}).

(** [app.get("/api/docs/:docId/file")] up to [await fs.access]: the
    handler ends there, or waits for the file at [filePath]. *)
Definition get_file_check (st : ServerState) (param : string)
    : Outcome + string * Z :=
  match assertDocId param with
  | inr e => inl (Rejected e)
  | inl _ =>
      match getDoc (indexDb st) param with
      | None => inl (Sent {| status := 404; body := BodyError "not_found" |})
      | Some doc => inr (latestPdfPath param (rev doc))
      end
  end.

(** The same handler from the end of [fs.access] on. *)
Definition get_file_access (st : ServerState) (filePath : string * Z) : Outcome :=
  match pdfs st !! filePath with
  | None => Sent {| status := 404; body := BodyError "file_missing" |}
  | Some content => Sent {| status := 200; body := BodyFile content |}
  end.

(** A handler suspended at an [await]. *)
Inductive Task :=
| Uploading (u : Upload)
| Downloading (filePath : string * Z).

(** The server process: the index and the files, the handlers
    suspended, the responses sent so far, and whether the process
    runs. *)
Record Server := {
  disk : ServerState;
  tasks : list Task;
  sent : list Response;
  running : bool
}.

(** The process as [main] leaves it. *)
Definition boot (st : ServerState) : Server :=
  {| disk := st; tasks := []; sent := []; running := true |}.

(** The end of a handler.  A rejection that express does not forward
    is handled by nobody, and Node ends the process on it. *)
Definition finish (v : Express) (s : Server) (o : Outcome) (st : ServerState)
    (rest : list Task) : Server :=
  match respond v o with
  | Some r => {| disk := st; tasks := rest; sent := (sent s ++ [r])%list; running := true |}
  | None => {| disk := st; tasks := []; sent := sent s; running := false |}
  end.

Definition suspend (s : Server) (task : Task) : Server :=
  {| disk := disk s; tasks := (tasks s ++ [task])%list; sent := sent s; running := true |}.

(** What the event loop does next: a request arrives and its handler
    runs to its first [await], or the [n]-th suspended handler runs to
    its next one, with [Date.now() = now]. *)
Inductive Step :=
| Arrive (req : ApiRequest)
| Resume (n : nat) (now : Z).

Definition step (v : Express) (s : Server) (e : Step) : Server :=
  if negb (running s) then s
  else
    match e with
    | Arrive GetHealth => finish v s get_health (disk s) (tasks s)
    | Arrive (GetMeta param) => finish v s (get_meta (disk s) param) (disk s) (tasks s)
    | Arrive (GetFile param) =>
        match get_file_check (disk s) param with
        | inl o => finish v s o (disk s) (tasks s)
        | inr filePath => suspend s (Downloading filePath)
        end
    | Arrive (PostDocs d f r file) =>
        match post_docs_check (disk s) d f r file with
        | inl o => finish v s o (disk s) (tasks s)
        | inr u => suspend s (Uploading u)
        end
    | Arrive (PutDocs param f r file) =>
        match put_docs_check (disk s) param f r file with
        | inl o => finish v s o (disk s) (tasks s)
        | inr u => suspend s (Uploading u)
        end
    | Resume n now =>
        match tasks s !! n with
        | None => s
        | Some (Downloading filePath) =>
            finish v s (get_file_access (disk s) filePath) (disk s) (delete n (tasks s))
        | Some (Uploading u) =>
            if up_written u then
              let '(o, st) := upload_commit now (disk s) u in
              finish v s o st (delete n (tasks s))
            else
              {| disk := upload_write (disk s) u;
                 tasks := <[n := Uploading
                              {| up_docId := up_docId u; up_filename := up_filename u;
                                 up_revServer := up_revServer u; up_file := up_file u;
                                 up_existing := up_existing u; up_body := up_body u;
                                 up_written := true |}]> (tasks s);
                 sent := sent s; running := true |}
        end
    end.

(** The server after a schedule. *)
Definition run (v : Express) (s : Server) (es : list Step) : Server :=
  foldl (step v) s es.

End Serve.

(** Every row of the index is stored under its own [docId] and the
    file of its revision exists. *)
Definition consistent (st : ServerState) : Prop :=
  forall (i : string) (row : DocRow),
    indexDb st !! i = Some row ->
    docId row = i /\ is_Some (pdfs st !! latestPdfPath i (rev row)).

(** A suspended handler has the file it counts on: a download the
    one it looked up, an upload past its write the one it wrote. *)
Definition task_ready (st : ServerState) (task : Task) : Prop :=
  match task with
  | Downloading filePath => is_Some (pdfs st !! filePath)
  | Uploading u =>
      up_written u = true ->
      is_Some (pdfs st !! latestPdfPath (up_docId u) (up_revServer u))
  end.

Definition file_missing : Response :=
  {| status := 404; body := BodyError "file_missing" |}.

(** The invariant of a server whose index and files are in step. *)
Definition in_step (s : Server) : Prop :=
  consistent (disk s) /\
  Forall (task_ready (disk s)) (tasks s) /\
  file_missing ∉ sent s.

(** An outcome that reaches the client as [file_missing]. *)
Definition answers_missing (o : Outcome) : Prop :=
  match o with
  | Sent r => r = file_missing
  | Next e | Thrown e | Rejected e => error_handler e = file_missing
  end.

End Routes.

(** ** App.tsx: more of the document page *)

Module App.
Import Frontend.

(** [x === y] on two array reads, each a byte or [undefined]. *)
Definition same_element (x y : option Byte.byte) : bool :=
  match x, y with
  | Some u, Some v => Byte.eqb u v
  | None, None => true
  | _, _ => false
  end.

(** The loop of [arraysEqual] from index [i], with [n] indices left. *)
Fixpoint arraysEqual_from (n i : nat) (a b : list Byte.byte) : bool :=
  match n with
  | O => true
  | S n' =>
      if same_element (a !! i) (b !! i) then arraysEqual_from n' (S i) a b else false
  end.

(** [arraysEqual(a, b)] *)
Definition arraysEqual (a b : list Byte.byte) : bool :=
  if bool_decide (length a = length b) then arraysEqual_from (length a) O a b
  else false.

(** [keepLocal()]: [None] when the flush awaited does not end within
    [fuel] passes of its loop. *)
Definition keepLocal (fuel : nat) (w : World) (t : nat) (f : Flags) (st : LocalStore)
    : option (list UiEvent * Flushed) :=
  flushed ← flushOutbox fuel w t f st;
  Some ([SetConflict None;
         SetStatus "Version locale conservée. Envoi vers le serveur…";
         FlushOutbox;
         SetStatus "Synchronisé."], flushed).

(** [takeServer()], with the page state [conflict] that its closure
    reads. *)
Definition takeServer (env : PageEnv) (st : LocalStore) (i : string)
    (conflict : option ConflictInfo) : list UiEvent * LocalStore :=
  match conflict with
  | None => ([], st)
  | Some c =>
      let started :=
        [SetConflict None;
         SetStatus ("Téléchargement version serveur (rev " ++ pretty (serverRev c) ++ ")…")] in
      match downloadServerVersion env st i
              {| sm_filename := serverFilename c; sm_rev := serverRev c |} with
      | (evs, Some st') =>
          ((started ++ evs ++
              [SetStatus ("Version serveur appliquée (rev "
                          ++ pretty (serverRev c) ++ ").")])%list,
           st')
      | (evs, None) =>
          ((started ++ evs ++ [SetStatus "Erreur téléchargement."])%list, st)
      end
  end.

End App.

(** A handler succeeded when it sent a response with status 200. *)
Definition succeeded (o : Backend.Outcome) : bool :=
  match o with
  | Backend.Sent r => Backend.status r =? 200
  | _ => false
  end.

(** ** Sample data *)

Definition sample_docId : string := "doc_0001".

Definition sample_file : Backend.UploadedFile :=
  {| Backend.buffer := [Byte.x25; Byte.x50; Byte.x44; Byte.x46]; Backend.size := 4 |}.

Definition sample_sha (content : list Byte.byte) : string := "".

Definition sample_row (r : Z) : Backend.DocRow :=
  {| Backend.docId := sample_docId; Backend.filename := "a.pdf";
     Backend.createdAt := 10; Backend.updatedAt := 20; Backend.rev := r;
     Backend.sha256 := ""; Backend.sizeBytes := 4 |}.

Definition empty_server : Backend.ServerState :=
  {| Backend.indexDb := ∅; Backend.pdfs := ∅ |}.

Definition server_at (r : Z) : Backend.ServerState :=
  {| Backend.indexDb := {[ sample_docId := sample_row r ]}; Backend.pdfs := ∅ |}.

Definition sample_job (r created : Z) : Frontend.OutboxJob :=
  {| Frontend.id := sample_docId ++ ":" ++ pretty r; Frontend.job_docId := sample_docId;
     Frontend.rev := r; Frontend.bytes := [Byte.x25]; Frontend.job_createdAt := created;
     Frontend.tries := Some 0; Frontend.lastError := None |}.

Definition sample_meta (r : Z) (known : option Z) : Frontend.DocMeta :=
  {| Frontend.docId := sample_docId; Frontend.filename := "a.pdf";
     Frontend.createdAt := 10; Frontend.updatedAt := 20;
     Frontend.revLocal := r; Frontend.revServer := known;
     Frontend.lastSyncedAt := None |}.

(** A device that saved revision 2 of a document it had synced at
    revision 1: one job in the outbox. *)
Definition one_job_store : Frontend.LocalStore :=
  {| Frontend.metas := {[ sample_docId := sample_meta 2 (Some 1) ]};
     Frontend.blobs := {[ (sample_docId, 2) := [Byte.x25] ]};
     Frontend.outbox := [sample_job 2 200] |}.

(** A device with a local copy at revision 1, synced, and nothing in
    the outbox. *)
Definition synced_store : Frontend.LocalStore :=
  {| Frontend.metas := {[ sample_docId := sample_meta 1 (Some 1) ]};
     Frontend.blobs := {[ (sample_docId, 1) := [Byte.x25] ]};
     Frontend.outbox := [] |}.

Definition empty_store : Frontend.LocalStore :=
  {| Frontend.metas := ∅; Frontend.blobs := ∅; Frontend.outbox := [] |}.

Definition conflict_response : Frontend.HttpResponse :=
  {| Frontend.res_status := 409; Frontend.res_text := "";
     Frontend.res_json := inl (Some 3) |}.

(** The server answers every upload with a 409 at revision 3; the
    device stays online up to instant 4. *)
Definition conflict_world : Frontend.World :=
  {| Frontend.onLine := fun t => (t <? 5)%nat;
     Frontend.fetch := fun _ _ => Frontend.FetchOk conflict_response;
     Frontend.clock := fun t => 1000 + Z.of_nat t |}.

(** The device is online when [flushOutbox] is called and offline when
    the loop tests the connection. *)
Definition dropping_world : Frontend.World :=
  {| Frontend.onLine := fun t => (t =? 0)%nat;
     Frontend.fetch := fun _ _ => Frontend.FetchError "Failed to fetch";
     Frontend.clock := fun t => 1000 + Z.of_nat t |}.

(** The echo of the revision proposed, as the server sends it back on
    acceptance. *)
Definition accepted_response (req : Frontend.Request) : Frontend.HttpResponse :=
  {| Frontend.res_status := 200; Frontend.res_text := "";
     Frontend.res_json :=
       inl (match parseInt10 (Frontend.fd_revClient (Frontend.form req)) with
            | Num z => Some z
            | _ => None
            end) |}.

(** The device is online throughout; the first upload fails in the
    network, the later ones are accepted. *)
Definition flaky_world : Frontend.World :=
  {| Frontend.onLine := fun _ => true;
     Frontend.fetch := fun t req =>
       if (t <? 3)%nat then Frontend.FetchError "Failed to fetch"
       else Frontend.FetchOk (accepted_response req);
     Frontend.clock := fun t => 1000 + Z.of_nat t |}.

(** A new document saved twice while offline: revision 1 created at
    100, revision 2 at 200, stored in the other order. *)
Definition two_job_store : Frontend.LocalStore :=
  {| Frontend.metas := {[ sample_docId := sample_meta 2 None ]};
     Frontend.blobs := ∅;
     Frontend.outbox := [sample_job 2 200; sample_job 1 100] |}.

Definition conflict_request : Frontend.Request :=
  Frontend.upload_request (sample_job 2 200) (Some (sample_meta 2 (Some 1))).

Definition conflict_message : string := "Conflit serveur (409). revServer=3".




Definition no_flags : Frontend.Flags :=
  {| Frontend.flushing := false; Frontend.flushQueued := false |}.

(** The server holds revision 2 of the sample document. *)
Definition page_env_server_at (r : Z) : Frontend.PageEnv :=
  {| Frontend.page_onLine := true;
     Frontend.meta_res :=
       Frontend.MetaStatus 200
         (Some {| Frontend.sm_filename := "a.pdf"; Frontend.sm_rev := r |});
     Frontend.file_res := Frontend.FileStatus 200 [Byte.x25; Byte.x50];
     Frontend.page_now := 5000;
     Frontend.cancelled := fun _ => false |}.

(** The device is online throughout and the server accepts every
    upload. *)
Definition accepting_world : Frontend.World :=
  {| Frontend.onLine := fun _ => true;
     Frontend.fetch := fun _ req => Frontend.FetchOk (accepted_response req);
     Frontend.clock := fun t => 1000 + Z.of_nat t |}.

(** The server cannot be reached for the file. *)
Definition unreachable_env : Frontend.PageEnv :=
  {| Frontend.page_onLine := true; Frontend.meta_res := Frontend.MetaFailed;
     Frontend.file_res := Frontend.FileFailed; Frontend.page_now := 0;
     Frontend.cancelled := fun _ => false |}.


(** Two uploads of the sample document in flight at once against a
    record at revision 3: revisions 5 and 4 arrive and pass their
    check, both files are written, and the upload of revision 5 writes
    the index. *)
Definition racing_uploads : list Routes.Step :=
  [Routes.Arrive (Routes.PutDocs sample_docId JUndefined (JString "5") (Some sample_file));
   Routes.Arrive (Routes.PutDocs sample_docId JUndefined (JString "4") (Some sample_file));
   Routes.Resume 0 30; Routes.Resume 1 31; Routes.Resume 0 40].

(** Then the upload of revision 4 writes the index. *)
Definition late_commit : list Routes.Step := [Routes.Resume 0 50].

(** A first upload with downloads around it. *)
Definition upload_with_downloads : list Routes.Step :=
  [Routes.Arrive (Routes.PostDocs (JString sample_docId) JUndefined (JString "1")
                    (Some sample_file));
   Routes.Arrive (Routes.GetFile sample_docId);
   Routes.Resume 0 30; Routes.Resume 0 40;
   Routes.Arrive (Routes.GetFile sample_docId);
   Routes.Arrive (Routes.PutDocs sample_docId JUndefined (JString "2") (Some sample_file));
   Routes.Resume 1 50; Routes.Resume 0 51; Routes.Resume 0 60].

(** Membership, and its absence, in a list that is written out. *)
Ltac in_list :=
  simpl; rewrite ?elem_of_app, ?elem_of_cons; tauto.

Ltac not_in_list H :=
  simpl in H; rewrite ?elem_of_app, ?elem_of_cons, ?elem_of_nil in H;
  intuition discriminate.

(** Spell out a membership in a list built with [::] and [++]. *)
Ltac members H :=
  simpl in H;
  rewrite ?elem_of_cons, ?elem_of_app, ?elem_of_cons, ?elem_of_nil in H.


(** * The parsers on examples *)

Example parseInt10_prefix : parseInt10 "12abc" = Num 12.
Proof. reflexivity. Qed.

Example parseInt10_signed : parseInt10 "  -7" = Num (-7) /\ parseInt10 "+3" = Num 3.
Proof. split; reflexivity. Qed.

Example parseInt10_no_digit : parseInt10 "" = NaN /\ parseInt10 "-" = NaN /\ parseInt10 "x1" = NaN.
Proof. split_and!; reflexivity. Qed.

Example parseInt10_rounds : parseInt10 "9007199254740993" = Num 9007199254740992.
Proof. vm_compute. reflexivity. Qed.

Example parseIntField_rejects :
  Backend.parseIntField "revClient" JUndefined
  = inr {| Backend.message := "Champ invalide: revClient"; Backend.err_status := Some 400 |}.
Proof. reflexivity. Qed.

Example docId_regex_examples :
  docId_regex_test "doc_0001" = true /\ docId_regex_test "V1StGXR8_Z5jdHi6B-myT" = true /\
  docId_regex_test "short" = false /\ docId_regex_test "has space" = false /\
  docId_regex_test "../../etc" = false.
Proof. split_and!; reflexivity. Qed.

Example encodeURIComponent_example :
  Frontend.encodeURIComponent "a b/c" = "a%20b%2Fc".
Proof. reflexivity. Qed.

Example backoff_examples :
  Frontend.backoff (sample_job 1 100) = 500 /\
  Frontend.backoff (Frontend.bump "e" (Frontend.bump "e" (Frontend.bump "e" (sample_job 1 100)))) = 2000.
Proof. split; reflexivity. Qed.

(** * The revision service *)

Section BackendFacts.
Import Backend.

Variable sha256Hex : list Byte.byte -> string.

Lemma getDoc_upsertDoc (db : gmap string DocRow) (row : DocRow) :
  rev <$> getDoc (upsertDoc db row) (docId row) = Some (rev row).
Proof.
  unfold getDoc, upsertDoc.
  destruct (db !! docId row) as [old|] eqn:E; by rewrite lookup_insert_eq.
Qed.

(** C1. For a document whose record is at revision [N], a well-formed
    upload whose [revClient] parses to [k], through POST /api/docs or
    PUT /api/docs/:docId, succeeds if and only if [N < k]; on success
    the record's revision becomes exactly [k]; otherwise the handler
    sends a 409 whose body carries [revServer = N] and changes
    nothing. *)
Theorem upload_accepts_iff_strictly_newer
    (now : Z) (st : ServerState) (i : string) (ex : DocRow)
    (b_docId b_filename b_revClient : JsField) (file : UploadedFile) (k : Z) :
  docId_regex_test i = true ->
  String_or b_docId "" = i ->
  getDoc (indexDb st) i = Some ex ->
  parseIntField "revClient" b_revClient = inl k ->
  let N := rev ex in
  let conflict := Sent {| status := 409; body := BodyConflict "conflict" N |} in
  let created := post_docs sha256Hex now st b_docId b_filename b_revClient (Some file) in
  let updated := put_docs sha256Hex now st i b_filename b_revClient (Some file) in
  (succeeded created.1 = true <-> N < k) /\
  (succeeded updated.1 = true <-> N < k) /\
  (N < k ->
     rev <$> getDoc (indexDb created.2) i = Some k /\
     rev <$> getDoc (indexDb updated.2) i = Some k) /\
  (~ N < k -> created = (conflict, st) /\ updated = (conflict, st)).
Proof.
  intros Hid Hbody Hex Hk N conflict created updated.
  subst created updated conflict N.
  unfold post_docs, put_docs, assertDocId.
  rewrite Hbody, Hk, Hid, Hex. simpl.
  destruct (Z.leb_spec k (rev ex)) as [Hle|Hlt]; simpl.
  - split_and!; try done; try lia.
  - split_and!; try done; try lia.
    intros _; split;
      match goal with |- context [upsertDoc ?db ?row] =>
        apply (getDoc_upsertDoc db row) end.
Qed.

(** C9. When no record exists for the [docId], POST /api/docs accepts
    whatever integer [revClient] parses to, zero and negative values
    included, and stores it as the document's revision. *)
Theorem first_creation_accepts_any_revision
    (now : Z) (st : ServerState) (i : string)
    (b_docId b_filename b_revClient : JsField) (file : UploadedFile) (k : Z) :
  docId_regex_test i = true ->
  String_or b_docId "" = i ->
  getDoc (indexDb st) i = None ->
  parseIntField "revClient" b_revClient = inl k ->
  let created := post_docs sha256Hex now st b_docId b_filename b_revClient (Some file) in
  created.1 = Sent {| status := 200; body := BodyCreated i k ("/d/" ++ i) |} /\
  rev <$> getDoc (indexDb created.2) i = Some k.
Proof.
  intros Hid Hbody Hnone Hk created. subst created.
  unfold post_docs, assertDocId.
  rewrite Hbody, Hk, Hid, Hnone. simpl. split; [done|].
  match goal with |- context [upsertDoc ?db ?row] =>
    apply (getDoc_upsertDoc db row) end.
Qed.

End BackendFacts.

Lemma upload_accepts_iff_strictly_newer_witness :
  docId_regex_test sample_docId = true /\
  Backend.getDoc (Backend.indexDb (server_at 3)) sample_docId = Some (sample_row 3) /\
  Backend.parseIntField "revClient" (JString "5") = inl 5 /\
  (succeeded (Backend.post_docs sample_sha 30 (server_at 3) (JString sample_docId)
                JUndefined (JString "5") (Some sample_file)).1 = true <-> 3 < 5).
Proof.
  split_and!; [reflexivity | reflexivity | reflexivity |].
  apply (upload_accepts_iff_strictly_newer sample_sha 30 (server_at 3) sample_docId
           (sample_row 3) (JString sample_docId) JUndefined (JString "5") sample_file 5);
    reflexivity.
Defined.

Lemma first_creation_accepts_any_revision_witness :
  Backend.getDoc (Backend.indexDb empty_server) sample_docId = None /\
  Backend.parseIntField "revClient" (JString "-7") = inl (-7) /\
  Backend.parseIntField "revClient" (JString "0") = inl 0 /\
  Backend.rev <$> Backend.getDoc (Backend.indexDb
      (Backend.post_docs sample_sha 30 empty_server (JString sample_docId)
         JUndefined (JString "-7") (Some sample_file)).2) sample_docId = Some (-7) /\
  Backend.rev <$> Backend.getDoc (Backend.indexDb
      (Backend.post_docs sample_sha 30 empty_server (JString sample_docId)
         JUndefined (JString "0") (Some sample_file)).2) sample_docId = Some 0.
Proof.
  split_and!; [reflexivity | reflexivity | reflexivity | |].
  - apply (first_creation_accepts_any_revision sample_sha 30 empty_server sample_docId
             (JString sample_docId) JUndefined (JString "-7") sample_file (-7));
      reflexivity.
  - apply (first_creation_accepts_any_revision sample_sha 30 empty_server sample_docId
             (JString sample_docId) JUndefined (JString "0") sample_file 0);
      reflexivity.
Defined.

Section InvalidDocId.
Import Backend.

Variable sha256Hex : list Byte.byte -> string.

(** C8. A [docId] that fails the pattern makes every handler that takes
    one raise the status-400 error before it looks up or writes anything
    (POST may raise the status-400 error of [revClient] first).  For
    GET .../meta, POST and PUT the client receives HTTP 400.  The
    [async] handler of GET .../file does not forward the error: the
    client receives HTTP 400 only from a framework that forwards a
    rejected handler promise, and nothing at all from express 4. *)
Theorem invalid_docId_rejected
    (v : Express) (now : Z) (st : ServerState) (i : string)
    (b_docId b_filename b_revClient : JsField) (file : option UploadedFile) :
  docId_regex_test i = false ->
  String_or b_docId "" = i ->
  let bad := {| message := "docId invalide"; err_status := Some 400 |} in
  let created := post_docs sha256Hex now st b_docId b_filename b_revClient file in
  let updated := put_docs sha256Hex now st i b_filename b_revClient file in
  get_meta st i = Thrown bad /\
  respond v (get_meta st i) = Some (error_handler bad) /\
  (exists e, created = (Next e, st) /\ err_status e = Some 400 /\
             respond v created.1 = Some {| status := 400; body := BodyError (message e) |}) /\
  updated = (Next bad, st) /\
  respond v updated.1 = Some (error_handler bad) /\
  status (error_handler bad) = 400 /\
  get_file st i = Rejected bad /\
  respond v (get_file st i)
    = match v with Express4 => None | Express5 => Some (error_handler bad) end.
Proof.
  intros Hbad Hbody bad created updated. subst created updated bad.
  unfold get_meta, get_file, post_docs, put_docs, assertDocId.
  rewrite Hbody, Hbad. simpl.
  split_and!; try done.
  unfold parseIntField.
  destruct (match b_revClient with JString s => parseInt10 s | _ => NaN end);
    simpl; eexists; split_and!; done.
Qed.

End InvalidDocId.

Lemma invalid_docId_rejected_witness :
  docId_regex_test "abc" = false /\
  Backend.respond Backend.Express4 (Backend.get_file (server_at 3) "abc") = None /\
  Backend.respond Backend.Express4 (Backend.get_meta (server_at 3) "abc")
    = Some {| Backend.status := 400; Backend.body := Backend.BodyError "docId invalide" |}.
Proof.
  split; [reflexivity|].
  pose proof (invalid_docId_rejected sample_sha Backend.Express4 30 (server_at 3) "abc"
                (JString "abc") JUndefined (JString "4") (Some sample_file)
                eq_refl eq_refl) as H.
  cbv zeta in H.
  destruct H as (_ & Hmeta & _ & _ & _ & _ & _ & Hfile).
  split; [exact Hfile | exact Hmeta].
Defined.

(** * The outbox flusher *)

Section FlusherFacts.
Import Frontend.

Lemma docId_char_unreserved (c : ascii) :
  is_docId_char c = true -> is_uri_unreserved c = true.
Proof.
  unfold is_docId_char, is_uri_unreserved.
  generalize (nat_of_ascii c). intros n H.
  repeat match goal with
         | H : (_ || _)%bool = true |- _ => apply orb_true_iff in H; destruct H as [H|H]
         end;
    rewrite ?orb_true_iff; tauto.
Qed.

Lemma encodeURIComponent_docId (s : string) :
  all_chars is_docId_char s = true -> encodeURIComponent s = s.
Proof.
  induction s as [|c s IH]; [done|]. simpl.
  intros [Hc Hs]%andb_true_iff.
  by rewrite (docId_char_unreserved c Hc), IH.
Qed.

(** C7. The flusher decides the upload of a job from the document's
    current meta: without a [revServer], or with one that is not
    positive, the job is sent as POST /api/docs; otherwise as
    PUT /api/docs/<docId>. *)
Theorem upload_method_follows_revServer
    (w : World) (t : nat) (st : LocalStore) (job : OutboxJob) :
  docId_regex_test (job_docId job) = true ->
  let known := metas st !! job_docId job ≫= revServer in
  exists req rest,
    (attempt w t st job).1.1 = EvAttempt job :: EvFetch req :: rest /\
    fd_docId (form req) = job_docId job /\
    fd_revClient (form req) = pretty (rev job) /\
    match known with
    | Some r =>
        if 0 <? r
        then method req = PUT /\ url req = "/api/docs/" ++ job_docId job
        else method req = POST /\ url req = "/api/docs"
    | None => method req = POST /\ url req = "/api/docs"
    end.
Proof.
  intros Hid known.
  assert (Hchars : all_chars is_docId_char (job_docId job) = true).
  { unfold docId_regex_test in Hid. by apply andb_true_iff in Hid as [_ ?]. }
  unfold attempt, upsertDocMeta. rewrite Hid.
  set (meta := default _ (metas st !! job_docId job)).
  set (st0 := {| metas := _ |}).
  assert (Hknown : Some meta ≫= revServer = known).
  { subst meta known. by destruct (metas st !! job_docId job). }
  exists (upload_request job (Some meta)).
  assert (Hev : exists rest, (let '(evs, t1, st1, err) := uploadOne w t st0 job (Some meta) in
            match err with
            | Some msg => (evs, t1, st1, Some msg)
            | None => ((evs ++ [EvRemoveOutbox (id job)])%list, t1,
                       removeOutbox st1 (id job), None)
            end).1.1.1 = EvFetch (upload_request job (Some meta)) :: rest).
  { unfold uploadOne.
    destruct (fetch w t _) as [msg|res]; [by eexists|].
    destruct (res_status res =? 409); [by eexists|].
    destruct (negb (res_ok res)); [by eexists|].
    destruct (res_json res) as [r|msg]; [|by eexists].
    destruct (upsertDocMeta _ _ _ _) as [[m st']|msg]; by eexists. }
  destruct Hev as [rest Hev].
  destruct (let '(evs, t1, st1, err) := uploadOne w t st0 job (Some meta) in _)
    as [[[evs t1] st1] err] eqn:E.
  simpl in Hev. subst evs.
  exists (match err with
          | None => rest
          | Some msg => (rest ++ [EvBumpOutboxTry (id job) msg; EvSleep (backoff job)])%list
          end).
  split; [by destruct err|].
  unfold upload_request, existsOnServer. rewrite Hknown. simpl.
  rewrite (encodeURIComponent_docId _ Hchars).
  split_and!; try done.
  destruct known as [r|]; [|done]. by destruct (0 <? r).
Qed.

End FlusherFacts.

Lemma upload_method_follows_revServer_witness :
  docId_regex_test (Frontend.job_docId (sample_job 2 200)) = true /\
  exists req rest,
    (Frontend.attempt conflict_world 2 one_job_store (sample_job 2 200)).1.1
      = Frontend.EvAttempt (sample_job 2 200) :: Frontend.EvFetch req :: rest /\
    Frontend.method req = Frontend.PUT /\
    Frontend.url req = "/api/docs/doc_0001".
Proof.
  split; [reflexivity|].
  destruct (upload_method_follows_revServer conflict_world 2 one_job_store
              (sample_job 2 200) eq_refl) as (req & rest & Hev & _ & _ & Hm).
  exists req, rest. split; [exact Hev|exact Hm].
Defined.

(** * The document page *)

Section PageFacts.
Import Frontend.

(** C6. A sync check that obtains the server meta, without
    auto-resolve, compares [serverRev] with [revLocal] three ways.
    Equal: the document is reported up to date and nothing else is
    done, the flusher is not called and the local store is as it was.
    Smaller: the outbox flusher is called between the two status
    messages, and the store and the flusher's variables are left as
    that call of [flushOutbox] leaves them.  Greater: the conflict is
    set for the user to see, the flusher is not called and the local
    store is as it was. *)
Theorem checkForUpdate_three_way
    (fuel : nat) (w : World) (t : nat) (f : Flags)
    (env : PageEnv) (st : LocalStore) (i : string) (revLocal : Z)
    (code : Z) (serverMeta : ServerMeta) :
  page_onLine env = true ->
  meta_res env = MetaStatus code (Some serverMeta) ->
  http_ok code = true ->
  let serverRev := sm_rev serverMeta in
  let checked := checkForUpdate fuel w t f env st i revLocal false false in
  (serverRev = revLocal ->
     checked = Some ([SetCheckingUpdate true; SetRevServer (Some serverRev);
                      SetStatus ("À jour (rev " ++ pretty revLocal ++ ").");
                      SetCheckingUpdate false],
                     not_flushed t f st)) /\
  (serverRev < revLocal ->
     checked = (flushed ← flushOutbox fuel w t f st;
                Some ([SetCheckingUpdate true; SetRevServer (Some serverRev);
                       SetStatus "Envoi vers le serveur…"; FlushOutbox;
                       SetStatus "Synchronisé."; SetCheckingUpdate false],
                      flushed))) /\
  (revLocal < serverRev ->
     checked = Some ([SetCheckingUpdate true; SetRevServer (Some serverRev);
                      SetConflict (Some {| serverRev := serverRev;
                                           serverFilename := sm_filename serverMeta |});
                      SetStatus ("Conflit: serveur a rev " ++ pretty serverRev
                                 ++ ", vous avez rev " ++ pretty revLocal ++ ".");
                      SetCheckingUpdate false],
                     not_flushed t f st)).
Proof.
  intros Hon Hmeta Hok serverRev checked. subst checked serverRev.
  unfold checkForUpdate. rewrite Hon, Hmeta, Hok. simpl.
  destruct (Z.ltb_spec revLocal (sm_rev serverMeta)) as [Hlt|Hge]; simpl.
  - split_and!; [intros; lia | intros; lia | done].
  - destruct (Z.eqb_spec (sm_rev serverMeta) revLocal) as [Heq|Hne]; simpl.
    + split_and!; [done | intros; lia | intros; lia].
    + split_and!; [intros; lia | | intros; lia].
      intros _. by destruct (flushOutbox fuel w t f st) as [flushed|].
Qed.

(** C5, as the page does it.  On first load the choice between the two
    policies follows the local copy, not the outbox: with a local copy
    shown, a greater server revision is set as a conflict for the user,
    nothing is downloaded or ingested and the store keeps its blobs and
    its outbox, whatever the outbox holds; without a local copy, the
    server revision is downloaded and ingested with [fromServer = true]
    and no conflict is set. *)
Theorem load_policy_follows_local_copy
    (env : PageEnv) (mode : Mode) (st : LocalStore) (i : string)
    (serverMeta : ServerMeta) :
  docId_regex_test i = true ->
  page_onLine env = true ->
  (forall n, cancelled env n = false) ->
  fetchMetaSafe env = Some serverMeta ->
  let loaded := load env mode st i in
  let r := sm_rev serverMeta in
  (forall blob localMeta,
     getDocBlobLatest st i = Some blob ->
     metas st !! i = Some localMeta ->
     revLocal localMeta < r ->
     SetConflict (Some {| serverRev := r; serverFilename := sm_filename serverMeta |})
       ∈ loaded.1 /\
     (forall r' b, Ingest i r' b ∉ loaded.1) /\
     outbox loaded.2 = outbox st /\ blobs loaded.2 = blobs st) /\
  (forall code blob,
     getDocBlobLatest st i = None ->
     file_res env = FileStatus code blob ->
     http_ok code = true ->
     Ingest i r true ∈ loaded.1 /\
     (forall c, SetConflict c ∉ loaded.1) /\
     blobs loaded.2 !! (i, r) = Some blob).
Proof.
  intros Hid Hon Hcan Hmeta loaded r. subst loaded r. split.
  - intros blob localMeta Hblob Hm Hlt.
    unfold load, upsertDocMeta. rewrite Hid, Hblob, Hm, Hon, Hmeta, !Hcan. simpl.
    apply Z.ltb_lt in Hlt. rewrite Hlt. simpl.
    split_and!; [in_list | | done | done].
    intros r' b Hin. not_in_list Hin.
  - intros code blob Hnone Hfile Hok.
    unfold load. unfold upsertDocMeta at 1. rewrite Hid, Hnone, Hon, Hmeta, !Hcan.
    rewrite Hfile, Hok.
    unfold addDocFromDrop, upsertDocMeta. simpl. rewrite Hid. simpl.
    unfold getDocBlobLatest. simpl. rewrite lookup_insert_eq. simpl.
    destruct (_ !! _) as [newLocal|] eqn:Hnew; simpl.
    + split_and!; [in_list | intros c Hin; not_in_list Hin | by rewrite lookup_insert_eq].
    + split_and!; [in_list | | by rewrite lookup_insert_eq].
      intros c Hin. unfold load_not_found in Hin. rewrite Hcan in Hin.
      destruct mode; not_in_list Hin.
Qed.

End PageFacts.

Lemma checkForUpdate_three_way_witness :
  exists flushed,
    Frontend.checkForUpdate 1 accepting_world 0 no_flags (page_env_server_at 1)
      one_job_store sample_docId 2 false false
    = Some ([Frontend.SetCheckingUpdate true; Frontend.SetRevServer (Some 1);
             Frontend.SetStatus "Envoi vers le serveur…"; Frontend.FlushOutbox;
             Frontend.SetStatus "Synchronisé."; Frontend.SetCheckingUpdate false],
            flushed) /\
    Frontend.outbox one_job_store = [sample_job 2 200] /\
    Frontend.outbox flushed.1.2 = [].
Proof.
  eexists. split.
  - rewrite (proj1 (proj2 (checkForUpdate_three_way 1 accepting_world 0 no_flags
                             (page_env_server_at 1) one_job_store sample_docId 2 200
                             {| Frontend.sm_filename := "a.pdf"; Frontend.sm_rev := 1 |}
                             eq_refl eq_refl eq_refl))
               ltac:(simpl; lia)).
    vm_compute. reflexivity.
  - split; reflexivity.
Defined.

(** The claim C5 fails on a first load with a local copy and no pending
    edit: the outbox is empty and the local revision is the one last
    synced, the server is one revision ahead, and the page sets the
    conflict for the user instead of ingesting the server revision. *)
Lemma first_load_conflict_without_pending_edits :
  Frontend.outbox synced_store = [] /\
  Frontend.metas synced_store !! sample_docId = Some (sample_meta 1 (Some 1)) /\
  (Frontend.load (page_env_server_at 2) Frontend.local synced_store sample_docId).1
  = [Frontend.SetStatus "Chargement…"; Frontend.SetFilename "a.pdf";
     Frontend.SetRevLocal 1; Frontend.SetObjectUrl [Byte.x25];
     Frontend.SetStatus "Prêt."; Frontend.SetRevServer (Some 2);
     Frontend.SetConflict (Some {| Frontend.serverRev := 2;
                                   Frontend.serverFilename := "a.pdf" |})].
Proof. split_and!; reflexivity. Qed.

Lemma load_policy_follows_local_copy_witness :
  Frontend.SetConflict (Some {| Frontend.serverRev := 2; Frontend.serverFilename := "a.pdf" |})
    ∈ (Frontend.load (page_env_server_at 2) Frontend.local synced_store sample_docId).1 /\
  Frontend.Ingest sample_docId 2 true
    ∈ (Frontend.load (page_env_server_at 2) Frontend.stable empty_store sample_docId).1.
Proof.
  split.
  - apply (proj1 (load_policy_follows_local_copy (page_env_server_at 2) Frontend.local
                    synced_store sample_docId
                    {| Frontend.sm_filename := "a.pdf"; Frontend.sm_rev := 2 |}
                    eq_refl eq_refl (fun _ => eq_refl) eq_refl)
             [Byte.x25] (sample_meta 1 (Some 1)));
      [reflexivity | reflexivity | simpl; lia].
  - apply (proj2 (load_policy_follows_local_copy (page_env_server_at 2) Frontend.stable
                    empty_store sample_docId
                    {| Frontend.sm_filename := "a.pdf"; Frontend.sm_rev := 2 |}
                    eq_refl eq_refl (fun _ => eq_refl) eq_refl)
             200 [Byte.x25; Byte.x50]);
      reflexivity.
Defined.

(** * The drain loop *)

Section DrainFacts.
Import Frontend.
Local Open Scope list_scope.

(** ** The outbox as [listOutbox] returns it *)

Lemma insert_job_elem le (a j : OutboxJob) (l : list OutboxJob) :
  a ∈ insert_job le j l <-> a = j \/ a ∈ l.
Proof.
  induction l as [|k l IH]; simpl.
  - rewrite list_elem_of_singleton, elem_of_nil. tauto.
  - destruct (le j k).
    + by rewrite !elem_of_cons.
    + rewrite !elem_of_cons, IH. tauto.
Qed.

Lemma sort_jobs_elem le (a : OutboxJob) (l : list OutboxJob) :
  a ∈ sort_jobs le l <-> a ∈ l.
Proof.
  induction l as [|j l IH]; simpl; [done|].
  rewrite insert_job_elem, elem_of_cons, IH. tauto.
Qed.

Lemma insert_job_length le (j : OutboxJob) (l : list OutboxJob) :
  length (insert_job le j l) = S (length l).
Proof.
  induction l as [|k l IH]; simpl; [done|].
  destruct (le j k); simpl; by rewrite ?IH.
Qed.

Lemma sort_jobs_length le (l : list OutboxJob) : length (sort_jobs le l) = length l.
Proof.
  induction l as [|j l IH]; simpl; [done|]. by rewrite insert_job_length, IH.
Qed.

Lemma listOutbox_elem (st : LocalStore) (a : OutboxJob) :
  a ∈ listOutbox st <-> a ∈ outbox st.
Proof. unfold listOutbox, getAll. by rewrite !sort_jobs_elem. Qed.

Lemma listOutbox_length (st : LocalStore) : length (listOutbox st) = length (outbox st).
Proof. unfold listOutbox, getAll. by rewrite !sort_jobs_length. Qed.









(** A change of jobs that keeps what the comparator reads keeps their
    order. *)
Lemma insert_job_fmap le (f : OutboxJob -> OutboxJob) (j : OutboxJob)
    (l : list OutboxJob) :
  (forall x y, le (f x) (f y) = le x y) ->
  insert_job le (f j) (f <$> l) = f <$> insert_job le j l.
Proof.
  intros Hf. induction l as [|k l IH]; [done|].
  rewrite fmap_cons. cbn [insert_job]. rewrite !Hf.
  destruct (le j k); [done|].
  rewrite fmap_cons. f_equal. exact IH.
Qed.

Lemma sort_jobs_fmap le (f : OutboxJob -> OutboxJob) (l : list OutboxJob) :
  (forall x y, le (f x) (f y) = le x y) ->
  sort_jobs le (f <$> l) = f <$> sort_jobs le l.
Proof.
  intros Hf. induction l as [|j l IH]; [done|].
  rewrite fmap_cons. cbn [sort_jobs]. rewrite IH. by apply insert_job_fmap.
Qed.

Lemma bump_if_createdAt i msg j : job_createdAt (bump_if i msg j) = job_createdAt j.
Proof. unfold bump_if. by destruct (decide _). Qed.

Lemma bump_if_id i msg j : id (bump_if i msg j) = id j.
Proof. unfold bump_if. by destruct (decide _). Qed.

Lemma listOutbox_bumpOutboxTry (st : LocalStore) (i msg : string) :
  listOutbox (bumpOutboxTry st i msg) = bump_if i msg <$> listOutbox st.
Proof.
  unfold listOutbox, getAll, bumpOutboxTry. simpl.
  rewrite (sort_jobs_fmap key_le (bump_if i msg)), (sort_jobs_fmap created_le (bump_if i msg)).
  - done.
  - intros x y. unfold created_le. by rewrite !bump_if_createdAt.
  - intros x y. unfold key_le. by rewrite !bump_if_id.
Qed.

(** ** One pass of the loop body *)

Lemma attempt_cases (w : World) (t : nat) (st : LocalStore) (job : OutboxJob) :
  attempt_result st job (attempt w t st job).1.1 (attempt w t st job).2.
Proof.
  unfold attempt.
  destruct (upsertDocMeta (clock w t) st (job_docId job) (fun m => m))
    as [[meta st0]|msg] eqn:Hup.
  - assert (Hout : outbox st0 = outbox st).
    { unfold upsertDocMeta in Hup. destruct (docId_regex_test _); by simplify_eq. }
    assert (Hlist : listOutbox st0 = listOutbox st)
      by (unfold listOutbox, getAll; by rewrite Hout).
    assert (Hfail : forall req msg,
      attempt_result st job
        (EvAttempt job :: [EvFetch req]
           ++ [EvBumpOutboxTry (id job) msg; EvSleep (backoff job)])
        (bumpOutboxTry st0 (id job) msg)).
    { intros req msg. apply attempt_failed; [eauto | simpl; by rewrite Hout |].
      by rewrite listOutbox_bumpOutboxTry, Hlist. }
    unfold uploadOne.
    destruct (fetch w t _) as [msg|res]; simpl; [apply Hfail|].
    destruct (res_status res =? 409); simpl; [apply Hfail|].
    destruct (negb (res_ok res)); simpl; [apply Hfail|].
    destruct (res_json res) as [r|msg]; simpl; [|apply Hfail].
    destruct (upsertDocMeta _ st0 _ _) as [[m st']|msg] eqn:Hup2; simpl; [|apply Hfail].
    apply attempt_uploaded. simpl.
    unfold upsertDocMeta in Hup2. destruct (docId_regex_test _); simplify_eq.
    simpl. by rewrite Hout.
  - simpl. apply (attempt_failed st job []); [eauto | done |].
    apply listOutbox_bumpOutboxTry.
Qed.

(** ** The loop *)

Lemma drain_inv (fuel : nat) (w : World) (t : nat) (st : LocalStore)
    (jobs : list OutboxJob) (tr : list Event) (t' : nat) (st' : LocalStore) :
  drain fuel w t st jobs = Some (tr, t', st') ->
  (tr = [] /\ st' = st /\ (jobs = [] \/ onLine w t = false)) \/
  (exists job rest fuel' tr1,
     jobs = job :: rest /\ fuel = S fuel' /\ onLine w t = true /\
     drain fuel' w (attempt w (S t) st job).1.2 (attempt w (S t) st job).2
       (listOutbox (attempt w (S t) st job).2) = Some (tr1, t', st') /\
     tr = (attempt w (S t) st job).1.1
          ++ EvNotify true (length (listOutbox (attempt w (S t) st job).2)) :: tr1).
Proof.
  intros Hdrain.
  destruct jobs as [|job rest].
  { destruct fuel; simpl in Hdrain; simplify_eq; left; auto. }
  destruct (onLine w t) eqn:Hon.
  2:{ destruct fuel; simpl in Hdrain; rewrite Hon in Hdrain; simplify_eq; left; auto. }
  destruct fuel as [|fuel']; simpl in Hdrain; rewrite Hon in Hdrain; [done|].
  destruct (attempt w (S t) st job) as [[evs t1] st1] eqn:Hatt. simpl.
  destruct (drain fuel' w t1 st1 (listOutbox st1)) as [[[tr1 t2] st2]|] eqn:Hrec; [|done].
  simplify_eq. right. exists job, rest, fuel', tr1. by rewrite Hatt.
Qed.





(** The loop is left with an empty list or after reading
    [navigator.onLine = false]. *)
Lemma drain_exit (fuel : nat) :
  forall (w : World) (t : nat) (st : LocalStore)
         (tr : list Event) (t' : nat) (st' : LocalStore),
  drain fuel w t st (listOutbox st) = Some (tr, t', st') ->
  listOutbox st' = [] \/ (exists t0, t' = S t0 /\ onLine w t0 = false).
Proof.
  induction fuel as [|fuel IH]; intros w t st tr t' st' Hdrain.
  - destruct (listOutbox st) as [|job rest] eqn:Hjobs; simpl in Hdrain.
    + simplify_eq. by left.
    + destruct (onLine w t) eqn:Hon; simplify_eq. right. by exists t.
  - destruct (listOutbox st) as [|job rest] eqn:Hjobs; simpl in Hdrain.
    + simplify_eq. by left.
    + destruct (onLine w t) eqn:Hon; [|simplify_eq; right; by exists t].
      destruct (attempt w (S t) st job) as [[evs t1] st1].
      destruct (drain fuel w t1 st1 (listOutbox st1)) as [[[tr1 t2] st2]|] eqn:Hrec;
        [|done].
      simplify_eq. by apply (IH w t1 st1 tr1).
Qed.


End DrainFacts.

(** * A whole flush *)

Section FlushFacts.
Import Frontend.
Local Open Scope list_scope.

Lemma flushOutbox_inv (fuel : nat) (w : World) (t : nat) (f : Flags) (st : LocalStore)
    (tr : list Event) (t' : nat) (f' : Flags) (st' : LocalStore) (again : bool) :
  flushOutbox fuel w t f st = Some (tr, t', f', st', again) ->
  (tr = [] /\ flushing f = true) \/
  (tr = [EvNotify false (length (listOutbox st))] /\ flushing f = false
   /\ onLine w t = false) \/
  (exists dtr,
     flushing f = false /\ onLine w t = true /\
     drain fuel w (S t) st (listOutbox st) = Some (dtr, t', st') /\
     tr = EvNotify true (length (listOutbox st)) :: dtr ++ [EvNotify false 0]).
Proof.
  unfold flushOutbox, flushOutbox_enter, notifySyncChange.
  destruct (flushing f) eqn:Hf; [intros [=]; subst; by left|].
  destruct (onLine w t) eqn:Hon; simpl; [|intros [=]; subst; right; by left].
  destruct (drain fuel w (S t) st (listOutbox st)) as [[[dtr t1] st1]|] eqn:Hd; [|done].
  simpl. intros [=]; subst. right; right. by exists dtr.
Qed.


(** C10. When the loop of a flush is left with jobs still queued, which
    happens only because [navigator.onLine] was read false, the last
    notification of the flush is [syncing = false] with [pending = 0],
    not the number of jobs that remain. *)
Theorem offline_exit_notifies_zero_pending
    (fuel : nat) (w : World) (t : nat) (f : Flags) (st : LocalStore)
    (tr : list Event) (t' : nat) (f' : Flags) (st' : LocalStore) (again : bool) :
  flushOutbox fuel w t f st = Some (tr, t', f', st', again) ->
  flushing f = false ->
  onLine w t = true ->
  listOutbox st' <> [] ->
  last tr = Some (EvNotify false 0) /\
  (exists t0, t' = S t0 /\ onLine w t0 = false) /\
  length (listOutbox st') <> O.
Proof.
  intros [(_ & Hf)|[(_ & _ & Hoff)|(dtr & _ & _ & Hdrain & ->)]]%flushOutbox_inv
    Hflushing Hon Hleft; [congruence | congruence |].
  split_and!.
  - by rewrite app_comm_cons, last_snoc.
  - by destruct (drain_exit fuel w (S t) st dtr t' st' Hdrain).
  - by destruct (listOutbox st').
Qed.

(** C2, as the flusher does it.  A 409 answer to the upload of a job is
    handled as any failed upload: the message of the conflict is
    recorded against the job with [bumpOutboxTry], the flusher pauses
    for the backoff of the job, between 500 and 16000 ms, and the job
    stays at the head of the outbox with one more try, where the next
    pass of the loop takes it again. *)
Theorem conflict_handled_as_failed_upload
    (w : World) (t : nat) (st : LocalStore) (job : OutboxJob)
    (rest : list OutboxJob) (res : HttpResponse) :
  listOutbox st = job :: rest ->
  docId_regex_test (job_docId job) = true ->
  let meta := default (default_meta (clock w t) (job_docId job))
                (metas st !! job_docId job) in
  let req := upload_request job (Some meta) in
  fetch w t req = FetchOk res ->
  res_status res = 409 ->
  let msg := ("Conflit serveur (409). revServer="
              ++ match res_json res with inl (Some r) => pretty r | _ => "?" end)%string in
  (attempt w t st job).1.1
    = [EvAttempt job; EvFetch req; EvBumpOutboxTry (id job) msg; EvSleep (backoff job)] /\
  500 <= backoff job <= 16000 /\
  listOutbox (attempt w t st job).2
    = bump msg job :: (bump_if (id job) msg <$> rest).
Proof.
  intros Hjobs Hid meta req Hfetch H409 msg.
  unfold attempt, upsertDocMeta. rewrite Hid. fold meta.
  unfold uploadOne. fold req. rewrite Hfetch, H409. simpl. fold msg.
  split_and!; [done | | | ].
  - unfold backoff. apply Z.mul_le_mono_nonneg_l with (p := 250) (n := 2) (m := 2 ^ _);
      [lia|]. change 2 with (2 ^ 1) at 1. apply Z.pow_le_mono_r; lia.
  - unfold backoff. change 16000 with (250 * 2 ^ 6).
    apply Z.mul_le_mono_nonneg_l; [lia|]. apply Z.pow_le_mono_r; lia.
  - rewrite listOutbox_bumpOutboxTry.
    change (listOutbox {| metas := _; blobs := _; outbox := outbox st |})
      with (listOutbox st).
    rewrite Hjobs, fmap_cons. f_equal. unfold bump_if. by rewrite decide_True.
Qed.

End FlushFacts.



Lemma offline_exit_notifies_zero_pending_witness :
  exists tr t' f' st' again,
    Frontend.flushOutbox 1 dropping_world 0 no_flags one_job_store
      = Some (tr, t', f', st', again) /\
    Frontend.listOutbox st' <> [] /\
    last tr = Some (Frontend.EvNotify false 0).
Proof.
  eexists _, _, _, _, _.
  split; [vm_compute; reflexivity|].
  split; [discriminate|].
  eapply (proj1 (offline_exit_notifies_zero_pending 1 dropping_world 0 no_flags
                   one_job_store _ _ _ _ _ eq_refl eq_refl eq_refl _)).
  Unshelve. discriminate.
Defined.

(** The claim C2 fails on a job whose upload is answered 409: the
    flusher records the conflict as the last error of the job, pauses
    500 ms, and attempts the same job again, with the same outcome. *)
Lemma conflict_is_retried_with_backoff :
  Frontend.fetch conflict_world 2 conflict_request = Frontend.FetchOk conflict_response /\
  Frontend.res_status conflict_response = 409 /\
  (fun r => r.1.1.1.1) <$> Frontend.flushOutbox 2 conflict_world 0 no_flags one_job_store
  = Some [Frontend.EvNotify true 1;
          Frontend.EvAttempt (sample_job 2 200);
          Frontend.EvFetch conflict_request;
          Frontend.EvBumpOutboxTry "doc_0001:2" conflict_message;
          Frontend.EvSleep 500;
          Frontend.EvNotify true 1;
          Frontend.EvAttempt (Frontend.bump conflict_message (sample_job 2 200));
          Frontend.EvFetch conflict_request;
          Frontend.EvBumpOutboxTry "doc_0001:2" conflict_message;
          Frontend.EvSleep 500;
          Frontend.EvNotify true 1;
          Frontend.EvNotify false 0].
Proof. split_and!; vm_compute; reflexivity. Qed.

Lemma conflict_handled_as_failed_upload_witness :
  Frontend.listOutbox one_job_store = [sample_job 2 200] /\
  (Frontend.attempt conflict_world 2 one_job_store (sample_job 2 200)).1.1
  = [Frontend.EvAttempt (sample_job 2 200); Frontend.EvFetch conflict_request;
     Frontend.EvBumpOutboxTry "doc_0001:2" conflict_message; Frontend.EvSleep 500].
Proof.
  split; [reflexivity|].
  exact (proj1 (conflict_handled_as_failed_upload conflict_world 2 one_job_store
                  (sample_job 2 200) [] conflict_response
                  eq_refl eq_refl eq_refl eq_refl)).
Defined.

(** * Single flight *)

Section SingleFlightFacts.
Import Frontend.
Local Open Scope list_scope.
Local Open Scope nat_scope.

Lemma call_one_drain (online : bool) (s : Flusher) :
  one_drain s -> one_drain (call online s).
Proof.
  unfold one_drain, call, flushOutbox_enter. destruct s as [[fl q] d r]; simpl.
  destruct fl; simpl; [done|]. destruct online; simpl; intros ->; done.
Qed.

Lemma step_one_drain (s s' : Flusher) (e : Step) (n : nat) :
  one_drain s -> step s e = Some (s', n) -> one_drain s'.
Proof.
  intros Hinv. destruct e as [online| | |online]; simpl.
  - intros [= <- <-]. by apply call_one_drain.
  - destruct (draining s); [done|]. by intros [= <- <-].
  - destruct (reporting s); [done|]. by intros [= <- <-].
  - unfold one_drain in Hinv. destruct s as [[fl q] d r]; simpl in *.
    destruct d as [|d]; [done|]. destruct fl; [|done]. injection Hinv as ->.
    destruct q; intros [= <- <-]; [by apply call_one_drain|done].
Qed.

Lemma run_one_drain (es : list Step) :
  forall (s s' : Flusher) (n : nat),
  one_drain s -> run s es = Some (s', n) -> one_drain s'.
Proof.
  induction es as [|e es IH]; intros s s' n Hinv; simpl.
  - by intros [= <- <-].
  - destruct (step s e) as [[s1 n1]|] eqn:Hstep; [|done]. simpl.
    destruct (run s1 es) as [[s2 n2]|] eqn:Hrun; [|done]. simpl.
    intros [= <- <-]. eapply IH; [|done]. by eapply step_one_drain.
Qed.

Lemma run_app (es1 es2 : list Step) :
  forall (s s1 s2 : Flusher) (n1 n2 : nat),
  run s es1 = Some (s1, n1) -> run s1 es2 = Some (s2, n2) ->
  run s (es1 ++ es2) = Some (s2, n1 + n2).
Proof.
  induction es1 as [|e es1 IH]; intros s s1 s2 n1 n2; simpl.
  - by intros [= <- <-] ->.
  - destruct (step s e) as [[s0 n0]|]; [|done]. simpl.
    destruct (run s0 es1) as [[s0' n0']|] eqn:Hrun; [|done]. simpl.
    intros [= <- <-] H2. rewrite (IH _ _ _ _ _ Hrun H2). simpl.
    do 2 f_equal. lia.
Qed.

(** While a drain is in flight, calls start nothing: they leave the
    tasks as they are and set [flushQueued]. *)
Lemma run_calls_during_drain (es : list Step) :
  forall s : Flusher,
  flushing (flags s) = true -> draining s = 1 ->
  forallb ends_nothing es = true ->
  run s es = Some ({| flags := {| flushing := true;
                                 flushQueued := flushQueued (flags s) || existsb is_call es |};
                      draining := 1; reporting := reporting s |}, 0).
Proof.
  induction es as [|e es IH]; intros [[fl q] d r] Hfl Hd Hall; simpl in *; subst.
  - by rewrite orb_false_r.
  - apply andb_true_iff in Hall as [He Hall].
    destruct e as [online| | |online]; try done; simpl.
    + unfold call, flushOutbox_enter. simpl. rewrite IH; [|done..]. simpl.
      by rewrite orb_true_r.
    + rewrite IH; [|done..]. done.
Qed.

(** C3. In every state the flusher reaches from the idle module, at
    most one drain loop is in flight.  A call of [flushOutbox] that
    arrives while [flushing] is set starts nothing: it leaves the tasks
    as they are and sets [flushQueued].  And however many calls arrive
    during a drain (at least one), the [finally] of that drain calls
    [flushOutbox] exactly once, which again leaves at most one drain in
    flight. *)
Theorem flush_is_single_flight (es : list Step) (s : Flusher) (n : nat) :
  run idle es = Some (s, n) ->
  draining s <= 1 /\
  (flushing (flags s) = true ->
   forall online,
     step s (Call online)
     = Some ({| flags := {| flushing := true; flushQueued := true |};
                draining := draining s; reporting := reporting s |}, 0)) /\
  (flushing (flags s) = true ->
   forall (calls : list Step) (online : bool),
     forallb ends_nothing calls = true ->
     existsb is_call calls = true ->
     exists s', run s (calls ++ [DrainEnds online]) = Some (s', 1) /\ draining s' <= 1).
Proof.
  intros Hrun.
  assert (Hinv : one_drain s) by (by eapply (run_one_drain es idle)).
  split_and!.
  - unfold one_drain in Hinv. rewrite Hinv. destruct (flushing (flags s)); lia.
  - intros Hfl online. simpl. unfold call, flushOutbox_enter. by rewrite Hfl.
  - intros Hfl calls online Hall Hsome.
    assert (Hd : draining s = 1) by (unfold one_drain in Hinv; by rewrite Hfl in Hinv).
    pose proof (run_calls_during_drain calls s Hfl Hd Hall) as Hcalls.
    rewrite Hsome, orb_true_r in Hcalls.
    destruct (run {| flags := {| flushing := true; flushQueued := true |};
                     draining := 1; reporting := reporting s |} [DrainEnds online])
      as [[s' k]|] eqn:Hend; [|done].
    exists s'. rewrite (run_app _ _ _ _ _ _ _ Hcalls Hend).
    simpl in Hend. injection Hend as <- <-. split; [done|].
    unfold call, flushOutbox_enter. simpl. destruct online; simpl; lia.
Qed.

End SingleFlightFacts.

Lemma flush_is_single_flight_witness :
  Frontend.run Frontend.idle [Frontend.Call true; Frontend.Resume]
    = Some ({| Frontend.flags := {| Frontend.flushing := true;
                                    Frontend.flushQueued := false |};
               Frontend.draining := 1; Frontend.reporting := 0 |}, O) /\
  exists s',
    Frontend.run {| Frontend.flags := {| Frontend.flushing := true;
                                         Frontend.flushQueued := false |};
                    Frontend.draining := 1; Frontend.reporting := 0 |}
      ([Frontend.Call true; Frontend.Resume; Frontend.Call false; Frontend.Call true]
         ++ [Frontend.DrainEnds true])%list
    = Some (s', 1%nat) /\ (Frontend.draining s' <= 1)%nat.
Proof.
  split; [reflexivity|].
  apply (proj2 (proj2 (flush_is_single_flight [Frontend.Call true; Frontend.Resume]
                         _ _ eq_refl)) eq_refl
           [Frontend.Call true; Frontend.Resume; Frontend.Call false; Frontend.Call true]
           true eq_refl eq_refl).
Defined.

(** * Further properties of the revision service *)

Section ServiceFacts.
Import Backend Routes.

Variable sha256Hex : list Byte.byte -> string.

Lemma upsertDoc_same (db : gmap string DocRow) (row : DocRow) :
  exists stored,
    getDoc (upsertDoc db row) (docId row) = Some stored /\
    filename stored = filename row /\ updatedAt stored = updatedAt row /\
    rev stored = rev row /\ sha256 stored = sha256 row /\
    sizeBytes stored = sizeBytes row /\
    createdAt stored = default (createdAt row) (createdAt <$> getDoc db (docId row)).
Proof.
  unfold getDoc, upsertDoc.
  destruct (db !! docId row) as [old|] eqn:E;
    rewrite lookup_insert_eq; eexists; split_and!; done.
Qed.

Lemma upsertDoc_other (db : gmap string DocRow) (row : DocRow) (j : string) :
  j <> docId row -> getDoc (upsertDoc db row) j = getDoc db j.
Proof.
  intros Hj. unfold getDoc, upsertDoc.
  destruct (db !! docId row); by rewrite lookup_insert_ne.
Qed.

(** X3. An upload that is not answered 200 changes nothing: whatever
    the request, POST /api/docs and PUT /api/docs/:docId leave the index
    and the files as they were unless they succeed. *)
Theorem failed_upload_changes_nothing
    (now : Z) (st : ServerState) (param : string)
    (b_docId b_filename b_revClient : JsField) (file : option UploadedFile) :
  let created := post_docs sha256Hex now st b_docId b_filename b_revClient file in
  let updated := put_docs sha256Hex now st param b_filename b_revClient file in
  (succeeded created.1 = false -> created.2 = st) /\
  (succeeded updated.1 = false -> updated.2 = st).
Proof.
  unfold post_docs, put_docs. split.
  - destruct (parseIntField _ _) as [k|e]; [|done].
    destruct (assertDocId _); [|done]. destruct file as [f|]; [|done].
    destruct (getDoc _ _) as [ex|]; simpl; [|done].
    by destruct (k <=? rev ex).
  - destruct (assertDocId _); [|done].
    destruct (parseIntField _ _) as [k|e]; [|done]. destruct file as [f|]; [|done].
    destruct (getDoc _ _) as [ex|]; simpl; [|done].
    by destruct (k <=? rev ex).
Qed.

(** X4. PUT /api/docs/:docId never creates a document: when the index
    has no row for the [docId], the request fails (400 for a bad id, a
    bad [revClient] or a missing file, 404 otherwise) and the state is
    unchanged. *)
Theorem put_never_creates
    (v : Express) (now : Z) (st : ServerState) (param : string)
    (b_filename b_revClient : JsField) (file : option UploadedFile) :
  getDoc (indexDb st) param = None ->
  let updated := put_docs sha256Hex now st param b_filename b_revClient file in
  updated.2 = st /\
  exists r, respond v updated.1 = Some r /\ (status r = 400 \/ status r = 404) /\
    (status r = 404 <->
       docId_regex_test param = true /\ is_Some file /\
       exists k, parseIntField "revClient" b_revClient = inl k).
Proof.
  intros Hnone. unfold put_docs, assertDocId. rewrite Hnone.
  destruct (docId_regex_test param) eqn:Hid; simpl.
  2:{ split; [done|]. eexists; split_and!; [done|by left|]. simpl.
      split; [done|]. intros (? & _). discriminate. }
  unfold parseIntField.
  destruct (match b_revClient with JString s => parseInt10 s | _ => NaN end)
    as [|neg|k]; simpl.
  1,2: split; [done|]; eexists; split_and!; [done|by left|]; simpl;
       split; [done|]; intros (_ & _ & k' & Hk); discriminate.
  destruct file as [f|]; simpl.
  - split; [done|]. eexists; split_and!; [done|by right|]. simpl.
    split; [|done]. intros _. split_and!; eauto.
  - split; [done|]. eexists; split_and!; [done|by left|]. simpl.
    split; [done|]. intros (_ & [f Hf] & _). discriminate.
Qed.

(** X2. What was uploaded is what is served, for an upload that the
    server handles with no other request in between: when it was
    answered 200, GET .../file then sends exactly the bytes uploaded
    and GET .../meta reports the revision proposed, the filename sent
    (or [<docId>.pdf]) and the time of the upload. *)
Theorem upload_then_download
    (now : Z) (st : ServerState) (i : string)
    (b_docId b_filename b_revClient : JsField) (f : UploadedFile) (k : Z) :
  String_or b_docId "" = i ->
  parseIntField "revClient" b_revClient = inl k ->
  let name := String_or b_filename (i ++ ".pdf") in
  let created := post_docs sha256Hex now st b_docId b_filename b_revClient (Some f) in
  let updated := put_docs sha256Hex now st i b_filename b_revClient (Some f) in
  (succeeded created.1 = true ->
     get_file created.2 i = Sent {| status := 200; body := BodyFile (buffer f) |} /\
     exists d, get_meta created.2 i
               = Sent {| status := 200; body := BodyMeta d k name now |}) /\
  (succeeded updated.1 = true ->
     get_file updated.2 i = Sent {| status := 200; body := BodyFile (buffer f) |} /\
     exists d, get_meta updated.2 i
               = Sent {| status := 200; body := BodyMeta d k name now |}).
Proof.
  intros Hbody Hk name created updated. subst name created updated.
  assert (Hserved : forall db row files,
    docId row = i -> rev row = k -> filename row = String_or b_filename (i ++ ".pdf") ->
    updatedAt row = now -> docId_regex_test i = true ->
    let st' := {| indexDb := upsertDoc db row;
                  pdfs := <[latestPdfPath i k := buffer f]> files |} in
    get_file st' i = Sent {| status := 200; body := BodyFile (buffer f) |} /\
    exists d, get_meta st' i
              = Sent {| status := 200;
                        body := BodyMeta d k (String_or b_filename (i ++ ".pdf")) now |}).
  { intros db row files Hd Hr Hn Hu Hid st'.
    destruct (upsertDoc_same db row) as (stored & Hget & Hfn & Hup & Hrev & _).
    rewrite Hd in Hget. unfold getDoc in Hget.
    unfold get_file, get_meta, assertDocId, getDoc. rewrite Hid. subst st'. simpl.
    rewrite Hget, Hrev, Hr, lookup_insert_eq, Hfn, Hup, Hn, Hu. eauto. }
  unfold post_docs, put_docs, assertDocId. rewrite Hbody, Hk.
  destruct (docId_regex_test i) eqn:Hid; simpl; [|done].
  destruct (getDoc (indexDb st) i) as [ex|] eqn:Hex; simpl.
  - destruct (k <=? rev ex); simpl; [done|]. split; intros _; by apply Hserved.
  - split; [|done]. intros _. by apply Hserved.
Qed.

(** X5. An upload touches one document only: the rows of the other
    documents stay as they were, and the only file written is the one of
    the document and revision uploaded; in particular the files of its
    earlier revisions stay. *)
Theorem upload_touches_one_document
    (now : Z) (st : ServerState)
    (b_docId b_filename b_revClient : JsField) (file : option UploadedFile) :
  let i := String_or b_docId "" in
  let created := post_docs sha256Hex now st b_docId b_filename b_revClient file in
  let updated := put_docs sha256Hex now st i b_filename b_revClient file in
  (forall j, j <> i ->
     getDoc (indexDb created.2) j = getDoc (indexDb st) j /\
     getDoc (indexDb updated.2) j = getDoc (indexDb st) j) /\
  (forall j r, parseIntField "revClient" b_revClient <> inl r \/ j <> i ->
     pdfs created.2 !! latestPdfPath j r = pdfs st !! latestPdfPath j r /\
     pdfs updated.2 !! latestPdfPath j r = pdfs st !! latestPdfPath j r).
Proof.
  intros i created updated. subst created updated.
  unfold post_docs, put_docs. fold i.
  destruct (parseIntField _ _) as [k|e]; [|by destruct (assertDocId i)].
  destruct (assertDocId i); [|done]. destruct file as [f|]; [|done].
  assert (Hrow : forall row j, docId row = i -> j <> i ->
            getDoc (upsertDoc (indexDb st) row) j = getDoc (indexDb st) j).
  { intros row j <- Hj. by apply upsertDoc_other. }
  assert (Hfile : forall j r, inl k <> @inl Z HttpError r \/ j <> i ->
            <[latestPdfPath i k := buffer f]> (pdfs st) !! latestPdfPath j r
            = pdfs st !! latestPdfPath j r).
  { intros j r Hne. apply lookup_insert_ne. unfold latestPdfPath.
    intros [= -> ->]. by destruct Hne. }
  destruct (getDoc (indexDb st) i) as [ex|]; simpl.
  - destruct (k <=? rev ex); simpl; [done|].
    split; [intros j Hj; split; by apply Hrow|intros j r Hne; split; by apply Hfile].
  - split; [intros j Hj; split; [by apply Hrow|done]|].
    intros j r Hne; split; [by apply Hfile|done].
Qed.

Lemma parseIntField_error (name : string) (v : JsField) (e : HttpError) :
  parseIntField name v = inr e ->
  e = {| message := "Champ invalide: " ++ name; err_status := Some 400 |}.
Proof.
  unfold parseIntField.
  destruct (match v with JString s => parseInt10 s | _ => NaN end); simpl; congruence.
Qed.

(** X8. The order of the checks.  POST /api/docs reports a bad
    [revClient] before a bad [docId], and either before a missing file;
    PUT /api/docs/:docId reports a bad [docId] before a bad [revClient],
    and a missing file before an unknown document: a PUT without file
    is answered 400 even for a document the server does not know. *)
Theorem upload_checks_in_order
    (now : Z) (st : ServerState) (param : string)
    (b_docId b_filename b_revClient : JsField) (file : option UploadedFile) :
  let bad_rev := {| message := "Champ invalide: revClient"; err_status := Some 400 |} in
  let bad_id := {| message := "docId invalide"; err_status := Some 400 |} in
  let no_file := Sent {| status := 400; body := BodyError "missing_file" |} in
  let rev_ok := exists k, parseIntField "revClient" b_revClient = inl k in
  let created := post_docs sha256Hex now st b_docId b_filename b_revClient file in
  let updated := put_docs sha256Hex now st param b_filename b_revClient file in
  (~ rev_ok -> created.1 = Next bad_rev) /\
  (rev_ok -> docId_regex_test (String_or b_docId "") = false ->
     created.1 = Next bad_id) /\
  (rev_ok -> docId_regex_test (String_or b_docId "") = true -> file = None ->
     created.1 = no_file) /\
  (docId_regex_test param = false -> updated.1 = Next bad_id) /\
  (docId_regex_test param = true -> ~ rev_ok -> updated.1 = Next bad_rev) /\
  (docId_regex_test param = true -> rev_ok -> file = None -> updated.1 = no_file).
Proof.
  intros bad_rev bad_id no_file rev_ok created updated.
  subst created updated rev_ok. unfold post_docs, put_docs, assertDocId.
  destruct (parseIntField "revClient" b_revClient) as [k|e] eqn:Hk.
  - split_and!.
    + intros []. by exists k.
    + by intros _ ->.
    + by intros _ -> ->.
    + by intros ->.
    + intros _ []. by exists k.
    + by intros -> _ ->.
  - apply parseIntField_error in Hk as ->. split_and!.
    + done.
    + by intros [k ?].
    + by intros [k ?].
    + by intros ->.
    + by intros ->.
    + by intros _ [k ?].
Qed.

(** ** The handlers interleaved *)

Lemma assertDocId_error (i : string) (e : HttpError) :
  assertDocId i = inr e ->
  e = {| message := "docId invalide"; err_status := Some 400 |}.
Proof. unfold assertDocId. destruct (docId_regex_test i); congruence. Qed.

Lemma respond_missing (v : Express) (o : Outcome) :
  respond v o = Some file_missing -> answers_missing o.
Proof. destruct o, v; simpl; congruence. Qed.

Lemma disk_finish (v : Express) (s : Server) (o : Outcome) (st : ServerState)
    (rest : list Task) :
  disk (finish v s o st rest) = st.
Proof. unfold finish. by destruct (respond v o). Qed.

Lemma finish_in_step (v : Express) (s : Server) (o : Outcome) (st : ServerState)
    (rest : list Task) :
  consistent st -> Forall (task_ready st) rest -> file_missing ∉ sent s ->
  ~ answers_missing o ->
  in_step (finish v s o st rest).
Proof.
  intros Hcons Hready Hsent Ho. unfold finish, in_step.
  destruct (respond v o) as [r|] eqn:Hr; simpl; (split_and!; [done| |]); try done.
  intros [Hin|Hlast%list_elem_of_singleton]%elem_of_app; [done|].
  subst r. by apply Ho, (respond_missing v).
Qed.

Lemma consistent_write (st : ServerState) (u : Upload) :
  consistent st -> consistent (upload_write st u).
Proof.
  intros Hcons i row Hrow. simpl in *. destruct (Hcons i row Hrow) as [Hd Hfile].
  split; [done|].
  destruct (decide (latestPdfPath (up_docId u) (up_revServer u) = latestPdfPath i (rev row)))
    as [->|Hne]; [by rewrite lookup_insert_eq|by rewrite lookup_insert_ne].
Qed.

Lemma consistent_upsert (st : ServerState) (row : DocRow) :
  consistent st ->
  is_Some (pdfs st !! latestPdfPath (docId row) (rev row)) ->
  consistent {| indexDb := upsertDoc (indexDb st) row; pdfs := pdfs st |}.
Proof.
  intros Hcons Hfile j stored Hj. simpl in *.
  destruct (decide (j = docId row)) as [->|Hne].
  - destruct (upsertDoc_same (indexDb st) row) as (stored' & Hget & _ & _ & Hr & _).
    unfold getDoc in Hget. rewrite Hget in Hj. injection Hj as <-.
    rewrite Hr. split; [|done].
    unfold upsertDoc in Hget.
    destruct (indexDb st !! docId row) as [old|] eqn:Hold;
      rewrite lookup_insert_eq in Hget; injection Hget as <-; simpl; [|done].
    by apply Hcons in Hold as [? _].
  - pose proof (upsertDoc_other (indexDb st) row j Hne) as Hsame.
    unfold getDoc in Hsame. rewrite Hsame in Hj. by apply Hcons in Hj.
Qed.

(** Files are never deleted, so a handler that found its file keeps
    it. *)
Lemma task_ready_write (st : ServerState) (u : Upload) (task : Task) :
  task_ready st task -> task_ready (upload_write st u) task.
Proof.
  assert (Hgrows : forall p, is_Some (pdfs st !! p) ->
                     is_Some (pdfs (upload_write st u) !! p)).
  { intros p Hp. simpl.
    destruct (decide (latestPdfPath (up_docId u) (up_revServer u) = p)) as [->|Hne];
      [by rewrite lookup_insert_eq|by rewrite lookup_insert_ne]. }
  destruct task as [u'|p]; simpl; [|apply Hgrows].
  intros Hu Hw. by apply Hgrows, Hu.
Qed.

Lemma task_ready_index (st : ServerState) (db : IndexDb) (task : Task) :
  task_ready st task -> task_ready {| indexDb := db; pdfs := pdfs st |} task.
Proof. by destruct task. Qed.

Lemma post_docs_check_answer (st : ServerState) (d f r : JsField)
    (file : option UploadedFile) (o : Outcome) :
  post_docs_check st d f r file = inl o -> ~ answers_missing o.
Proof.
  unfold post_docs_check.
  destruct (parseIntField _ _) as [k|e] eqn:Hk.
  2:{ apply parseIntField_error in Hk as ->. by intros [= <-]. }
  destruct (assertDocId _) as [|e] eqn:Hid.
  2:{ apply assertDocId_error in Hid as ->. by intros [= <-]. }
  destruct file as [up|]; [|by intros [= <-]].
  destruct (getDoc _ _) as [ex|]; [|done].
  destruct (k <=? rev ex); [|done]. by intros [= <-].
Qed.

Lemma put_docs_check_answer (st : ServerState) (param : string) (f r : JsField)
    (file : option UploadedFile) (o : Outcome) :
  put_docs_check st param f r file = inl o -> ~ answers_missing o.
Proof.
  unfold put_docs_check.
  destruct (assertDocId _) as [|e] eqn:Hid.
  2:{ apply assertDocId_error in Hid as ->. by intros [= <-]. }
  destruct (parseIntField _ _) as [k|e] eqn:Hk.
  2:{ apply parseIntField_error in Hk as ->. by intros [= <-]. }
  destruct file as [up|]; [|by intros [= <-]].
  destruct (getDoc _ _) as [ex|]; [|by intros [= <-]].
  destruct (k <=? rev ex); [|done]. by intros [= <-].
Qed.

Lemma post_docs_check_unwritten (st : ServerState) (d f r : JsField)
    (file : option UploadedFile) (u : Upload) :
  post_docs_check st d f r file = inr u -> up_written u = false.
Proof. unfold post_docs_check. repeat case_match; intros Hu; by simplify_eq. Qed.

Lemma put_docs_check_unwritten (st : ServerState) (param : string) (f r : JsField)
    (file : option UploadedFile) (u : Upload) :
  put_docs_check st param f r file = inr u -> up_written u = false.
Proof. unfold put_docs_check. repeat case_match; intros Hu; by simplify_eq. Qed.

Lemma get_meta_answer (st : ServerState) (param : string) :
  ~ answers_missing (get_meta st param).
Proof.
  unfold get_meta. destruct (assertDocId _) as [|e] eqn:Hid.
  2:{ by apply assertDocId_error in Hid as ->. }
  by destruct (getDoc _ _).
Qed.

Lemma step_in_step (v : Express) (s : Server) (e : Step) :
  in_step s -> in_step (step sha256Hex v s e).
Proof.
  intros (Hcons & Hready & Hsent). unfold step.
  destruct (running s); simpl; [|done].
  destruct e as [[|param|param|d f r file|param f r file]|n now].
  - by apply finish_in_step.
  - apply finish_in_step; [done|done|done|apply get_meta_answer].
  - unfold get_file_check.
    destruct (assertDocId param) as [|e] eqn:Hid.
    { destruct (getDoc (indexDb (disk s)) param) as [doc|] eqn:Hdoc.
      - split_and!; [done| |done]. simpl. apply Forall_app. split; [done|].
        apply Forall_singleton. simpl. by apply Hcons in Hdoc as [_ ?].
      - by apply finish_in_step. }
    apply assertDocId_error in Hid as ->. by apply finish_in_step.
  - destruct (post_docs_check (disk s) d f r file) as [o|u] eqn:Hcheck.
    + apply finish_in_step; [done|done|done|by eapply post_docs_check_answer].
    + split_and!; [done| |done]. simpl. apply Forall_app. split; [done|].
      apply Forall_singleton. simpl. intros Hw.
      by rewrite (post_docs_check_unwritten _ _ _ _ _ _ Hcheck) in Hw.
  - destruct (put_docs_check (disk s) param f r file) as [o|u] eqn:Hcheck.
    + apply finish_in_step; [done|done|done|by eapply put_docs_check_answer].
    + split_and!; [done| |done]. simpl. apply Forall_app. split; [done|].
      apply Forall_singleton. simpl. intros Hw.
      by rewrite (put_docs_check_unwritten _ _ _ _ _ _ Hcheck) in Hw.
  - destruct (tasks s !! n) as [[u|filePath]|] eqn:Htask; [| |done].
    + pose proof (Forall_lookup_1 _ _ _ _ Hready Htask) as Hu. simpl in Hu.
      destruct (up_written u) eqn:Hw; simpl.
      * apply finish_in_step; [|apply Forall_delete|done|done].
        -- apply (consistent_upsert (disk s)); [done|]. simpl. by apply Hu.
        -- eapply Forall_impl; [exact Hready|]. intros task. apply task_ready_index.
      * split_and!; simpl; [by apply consistent_write| |done].
        apply Forall_insert.
        -- eapply Forall_impl; [exact Hready|]. intros task. apply task_ready_write.
        -- simpl. intros _. by rewrite lookup_insert_eq.
    + pose proof (Forall_lookup_1 _ _ _ _ Hready Htask) as [content Hfile].
      apply finish_in_step; [done|by apply Forall_delete|done|].
      unfold get_file_access. by rewrite Hfile.
Qed.

Lemma run_in_step (v : Express) (es : list Step) :
  forall s, in_step s -> in_step (run sha256Hex v s es).
Proof.
  induction es as [|e es IH]; intros s Hs; simpl; [done|].
  by apply IH, step_in_step.
Qed.

(** X6. The index and the files stay in step under every interleaving
    of the handlers.  If every row of the index has the file of its
    revision when the server starts, then so it is after any schedule
    of arrivals and resumptions, and no request is answered
    [file_missing]. *)
Theorem served_file_never_missing
    (v : Express) (st : ServerState) (es : list Step) :
  consistent st ->
  consistent (disk (run sha256Hex v (boot st) es)) /\
  file_missing ∉ sent (run sha256Hex v (boot st) es).
Proof.
  intros Hcons.
  destruct (run_in_step v es (boot st)) as (Hafter & _ & Hsent); [|done].
  split_and!; [done|constructor|by intros ?%elem_of_nil].
Qed.

Lemma step_keeps_createdAt (v : Express) (s : Server) (e : Step)
    (i : string) (row : DocRow) :
  getDoc (indexDb (disk s)) i = Some row ->
  exists row', getDoc (indexDb (disk (step sha256Hex v s e))) i = Some row' /\
               createdAt row' = createdAt row.
Proof.
  intros Hrow. unfold step.
  destruct (running s); simpl; [|by exists row].
  destruct e as [[|param|param|d f r file|param f r file]|n now].
  - rewrite disk_finish. by exists row.
  - rewrite disk_finish. by exists row.
  - destruct (get_file_check _ _); [rewrite disk_finish|]; by exists row.
  - destruct (post_docs_check _ _ _ _ _); [rewrite disk_finish|]; by exists row.
  - destruct (put_docs_check _ _ _ _ _); [rewrite disk_finish|]; by exists row.
  - destruct (tasks s !! n) as [[u|filePath]|]; [| |by exists row].
    + destruct (up_written u); simpl; [|by exists row].
      match goal with |- context [upsertDoc ?db ?new] =>
        destruct (decide (i = docId new)) as [->|Hne];
        [destruct (upsertDoc_same db new)
           as (stored & Hget & _ & _ & _ & _ & _ & Hc)
        |rewrite (upsertDoc_other db new i Hne); by exists row]
      end.
      exists stored. split; [done|]. by rewrite Hrow in Hc.
    + rewrite disk_finish. by exists row.
Qed.

(** X7. Under every interleaving of the handlers a document, once in
    the index, stays in it and its [createdAt] never changes. *)
Theorem document_keeps_createdAt (v : Express) (es : list Step) :
  forall (s : Server) (i : string) (row : DocRow),
  getDoc (indexDb (disk s)) i = Some row ->
  exists row', getDoc (indexDb (disk (run sha256Hex v s es))) i = Some row' /\
               createdAt row' = createdAt row.
Proof.
  induction es as [|e es IH]; intros s i row Hrow; simpl.
  - by exists row.
  - destruct (step_keeps_createdAt v s e i row Hrow) as (row1 & H1 & Hc1).
    destruct (IH _ i row1 H1) as (row2 & H2 & Hc2).
    exists row2. split; [done|congruence].
Qed.


Lemma all_chars_get (p : ascii -> bool) (s : string) (n : nat) (c : ascii) :
  all_chars p s = true -> String.get n s = Some c -> p c = true.
Proof.
  revert n. induction s as [|c' s IH]; intros n; simpl; [done|].
  intros [Hc Hs]%andb_true_iff. destruct n as [|n]; [by intros [= <-]|].
  by apply IH.
Qed.

(** X9. A [docId] that passes the pattern has no character that means
    something in a path or a URL: no slash, backslash, dot, percent
    sign, space or NUL.  The directory [pdfs/<docId>] that
    [latestPdfPath] builds is therefore a direct child of the PDF
    directory. *)
Theorem valid_docId_is_path_safe (docId : string) (n : nat) (c : ascii) :
  docId_regex_test docId = true ->
  String.get n docId = Some c ->
  c <> "/"%char /\ c <> "\"%char /\ c <> "."%char /\ c <> "%"%char /\
  c <> " "%char /\ c <> "000"%char.
Proof.
  unfold docId_regex_test. intros [_ Hall]%andb_true_iff Hget.
  pose proof (all_chars_get _ _ _ _ Hall Hget) as Hc.
  split_and!; intros ->; discriminate Hc.
Qed.

(** ** The revision number across the wire *)

Lemma digit_of_pretty_N_char (d : N) :
  (d < 10)%N -> digit_of (pretty_N_char d) = Some (Z.of_N d).
Proof.
  intros Hd.
  assert (d = 0 \/ d = 1 \/ d = 2 \/ d = 3 \/ d = 4 \/ d = 5 \/ d = 6 \/ d = 7
          \/ d = 8 \/ d = 9)%N as Hcases by lia.
  repeat (destruct Hcases as [->|Hcases]; [reflexivity|]). by subst.
Qed.

Lemma read_digits_pretty_N_go (x : N) :
  forall s, (0 < x)%N ->
  read_digits None (pretty_N_go x s) = read_digits (Some (Z.of_N x)) s.
Proof.
  induction (N.lt_wf_0 x) as [x _ IH]. intros s Hx.
  rewrite pretty_N_go_step by done.
  assert (Hmod : (x `mod` 10 < 10)%N) by (apply N.mod_lt; lia).
  assert (Hval : Z.of_N x = 10 * Z.of_N (x `div` 10) + Z.of_N (x `mod` 10)).
  { rewrite (N.div_mod x 10) at 1 by lia. lia. }
  destruct (decide (x `div` 10 = 0)%N) as [Hz|Hnz].
  - rewrite Hz, pretty_N_go_0. simpl. rewrite (digit_of_pretty_N_char _ Hmod).
    rewrite Hval, Hz. done.
  - rewrite IH; [|apply N.div_lt; lia|by apply N.neq_0_lt_0].
    simpl. rewrite (digit_of_pretty_N_char _ Hmod). simpl. by rewrite Hval.
Qed.

Lemma pretty_N_go_head (x : N) :
  forall s, (0 < x)%N ->
  exists d rest, (d < 10)%N /\ pretty_N_go x s = String (pretty_N_char d) rest.
Proof.
  induction (N.lt_wf_0 x) as [x _ IH]. intros s Hx.
  rewrite pretty_N_go_step by done.
  destruct (decide (x `div` 10 = 0)%N) as [Hz|Hnz].
  - rewrite Hz, pretty_N_go_0. exists (x `mod` 10)%N. eexists. split; [|done].
    apply N.mod_lt; lia.
  - apply IH; [apply N.div_lt; lia|by apply N.neq_0_lt_0].
Qed.

Lemma parseInt10_digits (d : N) (rest : string) :
  (d < 10)%N ->
  let digits := String (pretty_N_char d) rest in
  parseInt10 digits
    = match read_digits None digits with
      | None => NaN
      | Some m => round_to_double m
      end /\
  parseInt10 (String "-" digits)
    = match read_digits None digits with
      | None => NaN
      | Some m => round_to_double (- m)
      end.
Proof.
  intros Hd.
  assert (d = 0 \/ d = 1 \/ d = 2 \/ d = 3 \/ d = 4 \/ d = 5 \/ d = 6 \/ d = 7
          \/ d = 8 \/ d = 9)%N as Hcases by lia.
  repeat (destruct Hcases as [->|Hcases]; [split; reflexivity|]). by subst.
Qed.

Lemma round_to_double_exact (z : Z) : Z.abs z < 2 ^ 53 -> round_to_double z = Num z.
Proof.
  intros Hz. unfold round_to_double.
  by destruct (Z.ltb_spec (Z.abs z) (2 ^ 53)); [|lia].
Qed.

Lemma parseInt10_pretty (z : Z) : Z.abs z < 2 ^ 53 -> parseInt10 (pretty z) = Num z.
Proof.
  intros Hz. destruct z as [|p|p]; [reflexivity| |].
  - unfold pretty, pretty_Z, pretty, pretty_positive, pretty, pretty_N.
    rewrite decide_False by done.
    destruct (pretty_N_go_head (N.pos p) "") as (d & rest & Hd & Hhead); [lia|].
    destruct (parseInt10_digits d rest Hd) as [Hp _].
    rewrite Hhead, Hp, <- Hhead, read_digits_pretty_N_go by lia. simpl.
    by apply round_to_double_exact.
  - unfold pretty, pretty_Z, pretty, pretty_positive, pretty, pretty_N.
    rewrite decide_False by done.
    destruct (pretty_N_go_head (N.pos p) "") as (d & rest & Hd & Hhead); [lia|].
    destruct (parseInt10_digits d rest Hd) as [_ Hp].
    rewrite Hhead. change ("-" +:+ String (pretty_N_char d) rest)
      with (String "-" (String (pretty_N_char d) rest)).
    rewrite Hp, <- Hhead, read_digits_pretty_N_go by lia. simpl.
    by apply round_to_double_exact.
Qed.

(** X10. The revision number survives the wire: for every integer [z]
    of magnitude below [2^53], [Number.parseInt] of the decimal numeral
    that the flusher puts in the form is [z] again, so [parseIntField]
    accepts it with that value. *)
Theorem revClient_round_trip (z : Z) :
  Z.abs z < 2 ^ 53 ->
  parseInt10 (pretty z) = Num z /\
  parseIntField "revClient" (JString (pretty z)) = inl z.
Proof.
  intros Hz. pose proof (parseInt10_pretty z Hz) as Hparse.
  split; [done|]. unfold parseIntField. by rewrite Hparse.
Qed.

(** X11. The form that the flusher builds for a job, handed to the
    upload handlers: for a job with a valid [docId] and a revision of
    magnitude below [2^53], the server compares exactly the job's
    revision with its own.  Without a record POST creates the document
    at the job's revision and PUT answers 404; with a record at [N]
    both accept the job if [N < rev] and answer 409 with [N]
    otherwise. *)
Theorem flusher_form_on_server
    (now : Z) (st : ServerState) (job : Frontend.OutboxJob)
    (meta : option Frontend.DocMeta) :
  docId_regex_test (Frontend.job_docId job) = true ->
  Z.abs (Frontend.rev job) < 2 ^ 53 ->
  let i := Frontend.job_docId job in
  let fm := Frontend.form (Frontend.upload_request job meta) in
  let file := {| buffer := Frontend.fd_file fm;
                 size := Z.of_nat (length (Frontend.fd_file fm)) |} in
  let created := post_docs sha256Hex now st (JString (Frontend.fd_docId fm))
                   (JString (Frontend.fd_filename fm))
                   (JString (Frontend.fd_revClient fm)) (Some file) in
  let updated := put_docs sha256Hex now st i (JString (Frontend.fd_filename fm))
                   (JString (Frontend.fd_revClient fm)) (Some file) in
  match getDoc (indexDb st) i with
  | None =>
      created.1 = Sent {| status := 200;
                          body := BodyCreated i (Frontend.rev job) ("/d/" ++ i) |} /\
      updated.1 = Sent {| status := 404; body := BodyError "not_found" |}
  | Some ex =>
      if Frontend.rev job <=? rev ex then
        created.1 = Sent {| status := 409; body := BodyConflict "conflict" (rev ex) |} /\
        updated.1 = Sent {| status := 409; body := BodyConflict "conflict" (rev ex) |}
      else
        created.1 = Sent {| status := 200;
                            body := BodyCreated i (Frontend.rev job) ("/d/" ++ i) |} /\
        updated.1 = Sent {| status := 200; body := BodyUpdated i (Frontend.rev job) |}
  end.
Proof.
  intros Hid Hrev i fm file created updated.
  subst created updated file fm i.
  unfold post_docs, put_docs, assertDocId, parseIntField, Frontend.upload_request. simpl.
  rewrite (parseInt10_pretty _ Hrev), Hid. simpl.
  destruct (getDoc (indexDb st) (Frontend.job_docId job)) as [ex|]; simpl; [|done].
  by destruct (Frontend.rev job <=? rev ex).
Qed.

End ServiceFacts.

Lemma upload_then_download_witness :
  Backend.parseIntField "revClient" (JString "5") = inl 5 /\
  Backend.get_file
    (Backend.put_docs sample_sha 30 (server_at 3) sample_docId JUndefined (JString "5")
       (Some sample_file)).2 sample_docId
  = Backend.Sent {| Backend.status := 200;
                    Backend.body := Backend.BodyFile (Backend.buffer sample_file) |}.
Proof.
  split; [reflexivity|].
  apply (proj2 (upload_then_download sample_sha 30 (server_at 3) sample_docId
                  (JString sample_docId) JUndefined (JString "5") sample_file 5
                  eq_refl eq_refl)).
  reflexivity.
Defined.

Lemma served_file_never_missing_witness :
  Routes.consistent empty_server /\
  Routes.file_missing
    ∉ Routes.sent (Routes.run sample_sha Backend.Express4 (Routes.boot empty_server)
                     upload_with_downloads).
Proof.
  assert (H : Routes.consistent empty_server) by (intros i row Hrow; discriminate Hrow).
  split; [exact H|].
  apply (served_file_never_missing sample_sha Backend.Express4 empty_server
           upload_with_downloads H).
Defined.

Lemma document_keeps_createdAt_witness :
  Backend.getDoc (Backend.indexDb (server_at 3)) sample_docId = Some (sample_row 3) /\
  exists row',
    Backend.getDoc
      (Backend.indexDb
         (Routes.disk (Routes.run sample_sha Backend.Express4 (Routes.boot (server_at 3))
                         (racing_uploads ++ late_commit)%list)))
      sample_docId = Some row' /\
    Backend.createdAt row' = 10.
Proof.
  split; [reflexivity|].
  apply (document_keeps_createdAt sample_sha Backend.Express4 _
           (Routes.boot (server_at 3)) sample_docId (sample_row 3) eq_refl).
Defined.

(** X22. The check of an upload and its write of the index are not one
    step.  Two uploads of one document in flight at once both pass the
    check against the stored revision 3; revision 5 is stored and
    answered 200, then revision 4 is stored over it and answered 200 as
    well: the revision of the document goes down. *)
Lemma stale_upload_overwrites_newer :
  let during :=
    Routes.run sample_sha Backend.Express4 (Routes.boot (server_at 3)) racing_uploads in
  let after := Routes.run sample_sha Backend.Express4 during late_commit in
  Backend.rev <$> Backend.getDoc (Backend.indexDb (Routes.disk during)) sample_docId
    = Some 5 /\
  Backend.rev <$> Backend.getDoc (Backend.indexDb (Routes.disk after)) sample_docId
    = Some 4 /\
  Routes.sent after
    = [{| Backend.status := 200; Backend.body := Backend.BodyUpdated sample_docId 5 |};
       {| Backend.status := 200; Backend.body := Backend.BodyUpdated sample_docId 4 |}].
Proof. vm_compute. split_and!; reflexivity. Qed.

Lemma valid_docId_is_path_safe_witness :
  docId_regex_test sample_docId = true /\ String.get 3 sample_docId = Some "_"%char /\
  "_"%char <> "/"%char.
Proof.
  split; [reflexivity|]. split; [reflexivity|].
  apply (valid_docId_is_path_safe sample_docId 3 "_" eq_refl eq_refl).
Defined.

Lemma revClient_round_trip_witness :
  Z.abs (-42) < 2 ^ 53 /\ parseInt10 (pretty (-42)) = Num (-42).
Proof.
  split; [reflexivity|]. apply (revClient_round_trip (-42)). reflexivity.
Defined.

Lemma flusher_form_on_server_witness :
  docId_regex_test (Frontend.job_docId (sample_job 2 200)) = true /\
  (Backend.put_docs sample_sha 30 (server_at 3) sample_docId
     (JString "a.pdf") (JString "2")
     (Some {| Backend.buffer := [Byte.x25]; Backend.size := 1 |})).1
  = Backend.Sent {| Backend.status := 409;
                    Backend.body := Backend.BodyConflict "conflict" 3 |}.
Proof.
  split; [reflexivity|].
  apply (proj2 (flusher_form_on_server sample_sha 30 (server_at 3) (sample_job 2 200)
                  (Some (sample_meta 2 (Some 1))) eq_refl eq_refl)).
Defined.

Lemma put_never_creates_witness :
  Backend.getDoc (Backend.indexDb empty_server) sample_docId = None /\
  (Backend.put_docs sample_sha 30 empty_server sample_docId JUndefined (JString "1")
     (Some sample_file)).2 = empty_server.
Proof.
  split; [reflexivity|].
  apply (put_never_creates sample_sha Backend.Express4 30 empty_server sample_docId
           JUndefined (JString "1") (Some sample_file) eq_refl).
Defined.

(** * Further properties of the client *)

Section ClientFacts.
Import Frontend App.
Local Open Scope list_scope.

Lemma same_element_true (x y : option Byte.byte) :
  same_element x y = true <-> x = y.
Proof.
  destruct x as [u|], y as [v|]; simpl; split; try done.
  - by intros ->%Byte.byte_dec_bl.
  - intros [= ->]. by apply Byte.byte_dec_lb.
Qed.

Lemma arraysEqual_from_true (n : nat) :
  forall (i : nat) (a b : list Byte.byte),
  arraysEqual_from n i a b = true <->
  (forall j, (i <= j < i + n)%nat -> a !! j = b !! j).
Proof.
  induction n as [|n IH]; intros i a b; simpl.
  - split; [intros _ j ?; lia|done].
  - destruct (same_element (a !! i) (b !! i)) eqn:Hi.
    + apply same_element_true in Hi. rewrite IH. split.
      * intros H j Hj. destruct (decide (j = i)) as [->|]; [done|]. apply H. lia.
      * intros H j Hj. apply H. lia.
    + split; [done|]. intros H.
      assert (a !! i = b !! i) as Heq by (apply H; lia).
      apply same_element_true in Heq. congruence.
Qed.

(** X12. [arraysEqual] decides equality of two byte arrays: it returns
    [true] exactly when they have the same length and the same byte at
    every index. *)
Theorem arraysEqual_decides_equality (a b : list Byte.byte) :
  arraysEqual a b = true <-> a = b.
Proof.
  unfold arraysEqual. case_bool_decide as Hlen.
  - rewrite arraysEqual_from_true. split.
    + intros H. apply list_eq. intros j.
      destruct (decide (j < length a)%nat); [apply H; lia|].
      rewrite !lookup_ge_None_2; [done|lia|lia].
    + by intros ->.
  - split; [done|]. intros ->. done.
Qed.

(** X18. The pause after a failure grows with the tries of the job read
    before the failure and stays within bounds: it is 500 ms up to one
    try (or when [tries] is missing), never decreases as the tries grow,
    and is 16000 ms from six tries on. *)
Theorem backoff_grows_and_saturates (j j' : OutboxJob) :
  (default 1 (tries j) <= 1 -> backoff j = 500) /\
  (6 <= default 1 (tries j) -> backoff j = 16000) /\
  (default 1 (tries j) <= default 1 (tries j') -> backoff j <= backoff j').
Proof.
  unfold backoff. split_and!.
  - intros H. by replace (Z.min 6 (Z.max 1 (default 1 (tries j)))) with 1 by lia.
  - intros H. by replace (Z.min 6 (Z.max 1 (default 1 (tries j)))) with 6 by lia.
  - intros H. apply Z.mul_le_mono_nonneg_l; [lia|].
    apply Z.pow_le_mono_r; lia.
Qed.

(** X20. [uploadOne] sends exactly one request, whatever the answer.
    When it throws, the local store is as before; when it returns, it
    has changed nothing but the metadata of the job's document. *)
Theorem uploadOne_effects
    (w : World) (t : nat) (st : LocalStore) (job : OutboxJob) (meta : option DocMeta) :
  let '(evs, t', st', err) := uploadOne w t st job meta in
  evs = [EvFetch (upload_request job meta)] /\ t' = S t /\
  (is_Some err -> st' = st) /\
  outbox st' = outbox st /\ blobs st' = blobs st /\
  (forall i, i <> job_docId job -> metas st' !! i = metas st !! i).
Proof.
  unfold uploadOne.
  destruct (fetch w t _) as [msg|res]; [by split_and!|].
  destruct (res_status res =? 409); [by split_and!|].
  destruct (negb (res_ok res)); [by split_and!|].
  destruct (res_json res) as [r|msg]; [|by split_and!].
  unfold upsertDocMeta. destruct (docId_regex_test (job_docId job)); [|by split_and!].
  simpl. split_and!; try done.
  intros i Hi. by rewrite lookup_insert_ne.
Qed.

(** X15. [takeServer] without a conflict does nothing.  With one, it
    clears the conflict before it downloads, so when the download fails
    (no answer, or an answer that is not 2xx) the conflict is gone all
    the same, nothing has been ingested and the local store is
    untouched. *)
Theorem takeServer_failure
    (env : PageEnv) (st : LocalStore) (i : string) (c : ConflictInfo) :
  takeServer env st i None = ([], st) /\
  ((file_res env = FileFailed \/
    exists code blob, file_res env = FileStatus code blob /\ http_ok code = false) ->
   takeServer env st i (Some c)
   = ([SetConflict None;
       SetStatus ("Téléchargement version serveur (rev "
                  ++ pretty (serverRev c) ++ ")…")%string;
       SetStatus "Erreur téléchargement."], st)).
Proof.
  split; [done|]. unfold takeServer, downloadServerVersion.
  intros [->|(code & blob & -> & ->)]; done.
Qed.

End ClientFacts.

Lemma takeServer_failure_witness :
  Frontend.file_res unreachable_env = Frontend.FileFailed /\
  (App.takeServer unreachable_env synced_store sample_docId
     (Some {| Frontend.serverRev := 2; Frontend.serverFilename := "a.pdf" |})).2
  = synced_store.
Proof.
  split; [reflexivity|].
  rewrite (proj2 (takeServer_failure unreachable_env synced_store sample_docId
                    {| Frontend.serverRev := 2; Frontend.serverFilename := "a.pdf" |})
             (or_introl eq_refl)).
  reflexivity.
Defined.

Section PageNever.
Import Frontend App.
Local Open Scope list_scope.

Lemma downloadServerVersion_events
    (env : PageEnv) (st : LocalStore) (i : string) (serverMeta : ServerMeta) :
  forall e, e ∈ (downloadServerVersion env st i serverMeta).1 ->
  (forall c, e <> SetConflict c) /\ e <> FlushOutbox /\
  (forall j r b, e = Ingest j r b -> b = true).
Proof.
  unfold downloadServerVersion, reloadViewer.
  destruct (file_res env) as [|code blob]; simpl; [by intros e ?%elem_of_nil|].
  destruct (negb (http_ok code)); simpl; [by intros e ?%elem_of_nil|].
  destruct (addDocFromDrop _ _ _ _ _ _) as [st'|msg]; simpl;
    [|by intros e ?%elem_of_nil].
  intros e He. destruct (getDocBlobLatest st' i); simpl in He;
    rewrite ?elem_of_cons, ?elem_of_nil in He;
    repeat (destruct He as [->|He]; [split_and!; [done|done|by intros ??? [= _ _ <-]]|]);
    done.
Qed.

(** X13. What a sync check can do, whatever the server answers.  It
    sets a conflict only without [autoResolve] and only for a server
    revision strictly greater than the local one.  It calls the flusher
    only for a server revision strictly smaller, and then leaves what
    that call of [flushOutbox] leaves.  Without [autoResolve] it never
    ingests anything, and unless it calls the flusher it leaves the
    local store and the flusher's variables as they were. *)
Theorem checkForUpdate_effects
    (fuel : nat) (w : World) (t : nat) (f : Flags)
    (env : PageEnv) (st : LocalStore) (i : string)
    (revLocal : Z) (checkingUpdate autoResolve : bool)
    (evs : list UiEvent) (flushed : Flushed) :
  checkForUpdate fuel w t f env st i revLocal checkingUpdate autoResolve
    = Some (evs, flushed) ->
  (forall c, SetConflict (Some c) ∈ evs ->
     autoResolve = false /\ revLocal < serverRev c) /\
  (FlushOutbox ∈ evs ->
     flushOutbox fuel w t f st = Some flushed /\
     exists code serverMeta,
       meta_res env = MetaStatus code (Some serverMeta) /\ sm_rev serverMeta < revLocal) /\
  (autoResolve = false ->
     (forall j r b, Ingest j r b ∉ evs) /\
     (FlushOutbox ∉ evs -> flushed = not_flushed t f st)).
Proof.
  unfold checkForUpdate.
  destruct (negb (page_onLine env) || checkingUpdate); simpl.
  { intros [= <- <-].
    split_and!; [by intros c ?%elem_of_nil|by intros ?%elem_of_nil|].
    intros _. split; [|done]. by intros j r b ?%elem_of_nil. }
  destruct (meta_res env) as [|code json]; simpl.
  { intros [= <- <-].
    split_and!; [intros c H; not_in_list H|intros H; not_in_list H|].
    intros _. split; [|done]. intros j r b H; not_in_list H. }
  destruct (negb (http_ok code)); simpl.
  { destruct (code =? 404); simpl; intros [= <- <-];
      (split_and!; [intros c H; not_in_list H|intros H; not_in_list H|];
       intros _; split; [|done]; intros j r b H; not_in_list H). }
  destruct json as [serverMeta|]; simpl.
  2:{ intros [= <- <-].
      split_and!; [intros c H; not_in_list H|intros H; not_in_list H|].
      intros _. split; [|done]. intros j r b H; not_in_list H. }
  destruct (Z.ltb_spec revLocal (sm_rev serverMeta)) as [Hlt|Hge]; simpl.
  - destruct autoResolve; simpl.
    + pose proof (downloadServerVersion_events env st i serverMeta) as Hdl.
      destruct (downloadServerVersion env st i serverMeta) as [dl [st'|]]; simpl in *;
        intros [= <- <-]; (split_and!; [| |done]).
      all: intros; members H; destruct_or! H; try done.
      all: try (by destruct (Hdl _ H) as [Hc _]; edestruct Hc).
      all: by destruct (Hdl _ H) as (_ & Hf & _).
    + intros [= <- <-]. split_and!.
      * intros c H. members H. destruct_or! H; try done.
        injection H as ->. done.
      * intros H; not_in_list H.
      * intros _. split; [|done]. intros j r b H; not_in_list H.
  - destruct (Z.eqb_spec (sm_rev serverMeta) revLocal) as [Heq|Hne]; simpl.
    + intros [= <- <-].
      split_and!; [intros c H; not_in_list H|intros H; not_in_list H|].
      intros _. split; [|done]. intros j r b H; not_in_list H.
    + destruct (flushOutbox fuel w t f st) as [fl|]; simpl; [|done].
      intros [= <- <-]. split_and!; [intros c H; not_in_list H| |].
      * intros _. split; [done|]. exists code, serverMeta. split; [done|lia].
      * intros _. split; [intros j r b H; not_in_list H|].
        intros H. exfalso. apply H. in_list.
Qed.

End PageNever.

Lemma checkForUpdate_effects_witness :
  exists evs flushed,
    Frontend.checkForUpdate 1 accepting_world 0 no_flags (page_env_server_at 1)
      one_job_store sample_docId 2 false false = Some (evs, flushed) /\
    Frontend.FlushOutbox ∈ evs /\
    Frontend.flushOutbox 1 accepting_world 0 no_flags one_job_store = Some flushed /\
    Frontend.outbox flushed.1.2 = [].
Proof.
  eexists _, _. split; [vm_compute; reflexivity|].
  assert (Hin : Frontend.FlushOutbox
                  ∈ [Frontend.SetCheckingUpdate true; Frontend.SetRevServer (Some 1);
                     Frontend.SetStatus "Envoi vers le serveur…"; Frontend.FlushOutbox;
                     Frontend.SetStatus "Synchronisé."; Frontend.SetCheckingUpdate false])
    by (do 3 apply list_elem_of_further; apply list_elem_of_here).
  split; [exact Hin|]. split; [|reflexivity].
  exact (proj1 (proj1 (proj2 (checkForUpdate_effects 1 accepting_world 0 no_flags
                                (page_env_server_at 1) one_job_store sample_docId 2
                                false false _ _ ltac:(vm_compute; reflexivity))) Hin)).
Defined.

Section LoadNever.
Import Frontend App.
Local Open Scope list_scope.

(** X14. What the first load can do, whatever the network answers and
    whenever the page is left.  With a local copy it never ingests
    anything and leaves the blobs and the outbox as they are; without
    one it never sets a conflict; and what it ingests, it ingests as
    coming from the server. *)
Theorem load_effects (env : PageEnv) (mode : Mode) (st : LocalStore) (i : string) :
  let loaded := load env mode st i in
  (is_Some (getDocBlobLatest st i) ->
     (forall j r b, Ingest j r b ∉ loaded.1) /\
     blobs loaded.2 = blobs st /\ outbox loaded.2 = outbox st) /\
  (getDocBlobLatest st i = None -> forall c, SetConflict c ∉ loaded.1) /\
  (forall j r b, Ingest j r b ∈ loaded.1 -> j = i /\ b = true).
Proof.
  unfold load, load_download_failed, load_not_found, upsertDocMeta.
  repeat case_match; simplify_eq/=; split_and!.
  all: try (intros Hsome; by apply is_Some_None in Hsome).
  all: try (intros _; split_and!; [intros j r b H; not_in_list H|done|done]).
  all: try (intros _ c H; not_in_list H).
  all: try done.
  all: intros j r b H; members H; destruct_or! H; by simplify_eq.
Qed.

End LoadNever.

Section DrainMore.
Import Frontend.
Local Open Scope list_scope.

Lemma drain_keeps_jobs (fuel : nat) :
  forall (w : World) (t : nat) (st : LocalStore) (jobs : list OutboxJob)
         (tr : list Event) (t' : nat) (st' : LocalStore),
  drain fuel w t st jobs = Some (tr, t', st') ->
  (forall a, queued st a -> EvRemoveOutbox (id a) ∈ tr \/ queued st' a) /\
  (forall a, queued st' a -> queued st a).
Proof.
  induction fuel as [|fuel IH]; intros w t st jobs tr t' st' Hdrain.
  - apply drain_inv in Hdrain as [(-> & -> & _)|(? & ? & ? & ? & _ & ? & _)]; [|done].
    split; auto.
  - apply drain_inv in Hdrain
      as [(-> & -> & _)|(job & rest & fuel' & tr1 & Hjobs & [= <-] & _ & Hrec & ->)];
      [split; auto|].
    pose proof (attempt_cases w (S t) st job) as Hcase.
    destruct (attempt w (S t) st job) as [[evs t1] st1]. simpl in *.
    destruct (IH w t1 st1 _ _ t' st' Hrec) as [Hfwd Hbwd].
    destruct Hcase as [req st1 Hout|sent msg st1 Hsent Hout _].
    + split.
      * intros a (a0 & Ha0 & Hid & Hcr).
        destruct (decide (id a0 = id job)) as [Heq|Hne].
        -- left. rewrite <- Hid, Heq. in_list.
        -- destruct (Hfwd a) as [Hin|Hq]; [| |by right].
           ++ exists a0. rewrite Hout. split_and!; [|done|done].
              by apply list_elem_of_filter.
           ++ left. rewrite elem_of_app. right. by apply list_elem_of_further.
      * intros a (a0 & Ha0 & Hid & Hcr)%Hbwd. exists a0.
        rewrite Hout in Ha0. apply list_elem_of_filter in Ha0 as [_ Ha0]. done.
    + split.
      * intros a (a0 & Ha0 & Hid & Hcr).
        destruct (Hfwd a) as [Hin|Hq]; [| |by right].
        -- exists (bump_if (id job) msg a0).
           rewrite Hout, bump_if_id, bump_if_createdAt. split_and!; [|done|done].
           by apply list_elem_of_fmap_2.
        -- left. rewrite app_comm_cons, elem_of_app. right.
           by apply list_elem_of_further.
      * intros a (a1 & Ha1 & Hid & Hcr)%Hbwd.
        rewrite Hout in Ha1. apply list_elem_of_fmap in Ha1 as (a0 & -> & Ha0).
        exists a0. by rewrite bump_if_id, bump_if_createdAt in *.
Qed.

(** X16. A flush loses no job and adds none: every job of the outbox
    is, when the flush ends, either still in the outbox (same id, same
    creation time) or was removed by a [removeOutbox] of the flush; and
    every job then in the outbox was there before. *)
Theorem flush_keeps_jobs
    (fuel : nat) (w : World) (t : nat) (f : Flags) (st : LocalStore)
    (tr : list Event) (t' : nat) (f' : Flags) (st' : LocalStore) (again : bool) :
  flushOutbox fuel w t f st = Some (tr, t', f', st', again) ->
  (forall a, a ∈ outbox st -> EvRemoveOutbox (id a) ∈ tr \/ queued st' a) /\
  (forall a, a ∈ outbox st' -> queued st a).
Proof.
  unfold flushOutbox, flushOutbox_enter.
  assert (Hself : forall s a, a ∈ outbox s -> queued s a) by (intros s a ?; by exists a).
  destruct (flushing f); [intros [=]; subst; split; auto|].
  destruct (onLine w t); simpl; [|intros [=]; subst; split; auto].
  destruct (drain fuel w (S t) st (listOutbox st)) as [[[dtr t1] st1]|] eqn:Hd; [|done].
  simpl. intros [=]; subst.
  destruct (drain_keeps_jobs fuel w (S t) st _ _ _ _ Hd) as [Hfwd Hbwd].
  split.
  - intros a Ha. destruct (Hfwd a (Hself _ _ Ha)) as [Hin|Hq]; [|by right].
    left. apply list_elem_of_further. rewrite elem_of_app. by left.
  - intros a Ha. by apply Hbwd, Hself.
Qed.

Lemma attempt_accepted (w : World) (t : nat) (st : LocalStore) (job : OutboxJob) :
  docId_regex_test (job_docId job) = true ->
  (forall t' req, exists res r,
     fetch w t' req = FetchOk res /\ res_ok res = true /\ res_json res = inl r) ->
  exists req st1,
    attempt w t st job
      = ([EvAttempt job; EvFetch req; EvRemoveOutbox (id job)], S t, st1) /\
    outbox st1 = filter (fun j => id j ≠ id job) (outbox st).
Proof.
  intros Hid Hacc. unfold attempt, upsertDocMeta. rewrite Hid.
  unfold uploadOne.
  match goal with |- context [fetch w t ?req] =>
    destruct (Hacc t req) as (res & r & -> & Hok & Hjson); exists req end.
  assert (H409 : (res_status res =? 409) = false).
  { unfold res_ok in Hok. apply andb_true_iff in Hok as [_ Hle%Z.leb_le].
    apply Z.eqb_neq. lia. }
  rewrite H409, Hok, Hjson. simpl. unfold upsertDocMeta. rewrite Hid. simpl.
  eexists. split; done.
Qed.

Lemma drain_accepted (w : World) (fuel : nat) :
  (forall t, onLine w t = true) ->
  (forall t req, exists res r,
     fetch w t req = FetchOk res /\ res_ok res = true /\ res_json res = inl r) ->
  forall (t : nat) (st : LocalStore),
  (length (outbox st) <= fuel)%nat ->
  (forall j, j ∈ outbox st -> docId_regex_test (job_docId j) = true) ->
  exists tr t' st',
    drain fuel w t st (listOutbox st) = Some (tr, t', st') /\
    outbox st' = [] /\
    (forall jid msg, EvBumpOutboxTry jid msg ∉ tr) /\
    (forall ms, EvSleep ms ∉ tr).
Proof.
  intros Hon Hacc. induction fuel as [|fuel IH]; intros t st Hlen Hvalid.
  - assert (outbox st = []) as Hnil by (apply length_zero_iff_nil; lia).
    unfold listOutbox, getAll. rewrite Hnil. simpl. exists [], t, st.
    split_and!; [done|done|intros ?? H; not_in_list H|intros ? H; not_in_list H].
  - destruct (listOutbox st) as [|job rest] eqn:Hjobs.
    + assert (outbox st = []) as Hnil.
      { apply length_zero_iff_nil. by rewrite <- listOutbox_length, Hjobs. }
      simpl. exists [], t, st.
      split_and!; [done|done|intros ?? H; not_in_list H|intros ? H; not_in_list H].
    + assert (Hin : job ∈ outbox st).
      { apply listOutbox_elem. rewrite Hjobs. by left. }
      destruct (attempt_accepted w (S t) st job (Hvalid _ Hin) Hacc)
        as (req & st1 & Hatt & Hout).
      destruct (IH (S (S t)) st1) as (tr1 & t' & st' & Hrec & Hnil & Hnb & Hns).
      { rewrite Hout.
        pose proof (length_filter_lt (fun j => id j ≠ id job) (outbox st) job Hin) as Hlt.
        assert (Hnot : ~ id job ≠ id job) by tauto.
        specialize (Hlt Hnot). lia. }
      { intros j Hj. apply Hvalid. rewrite Hout in Hj.
        by apply list_elem_of_filter in Hj as [_ ?]. }
      simpl. rewrite Hon, Hatt, Hrec. eexists _, t', st'. split; [done|].
      split_and!; [done| |].
      * intros jid msg H. members H. destruct_or! H; try done. by apply (Hnb jid msg).
      * intros ms H. members H. destruct_or! H; try done. by apply (Hns ms).
Qed.

(** X17. When the device stays online and the server accepts every
    upload, a flush with as much fuel as there are jobs ends: it leaves
    the outbox empty, never records a failure, never pauses, and its last
    notification is [syncing = false] with nothing pending. *)
Theorem flush_empties_outbox_when_accepted
    (w : World) (t : nat) (f : Flags) (st : LocalStore) :
  flushing f = false ->
  (forall t', onLine w t' = true) ->
  (forall t' req, exists res r,
     fetch w t' req = FetchOk res /\ res_ok res = true /\ res_json res = inl r) ->
  (forall j, j ∈ outbox st -> docId_regex_test (job_docId j) = true) ->
  exists tr t' f' st',
    flushOutbox (length (outbox st)) w t f st = Some (tr, t', f', st', false) /\
    outbox st' = [] /\
    (forall jid msg, EvBumpOutboxTry jid msg ∉ tr) /\
    (forall ms, EvSleep ms ∉ tr) /\
    last tr = Some (EvNotify false 0).
Proof.
  intros Hf Hon Hacc Hvalid.
  destruct (drain_accepted w (length (outbox st)) Hon Hacc (S t) st (le_n _) Hvalid)
    as (dtr & t' & st' & Hdrain & Hnil & Hnb & Hns).
  unfold flushOutbox, flushOutbox_enter. rewrite Hf, Hon, Hdrain. simpl.
  eexists _, _, _, _. split; [done|]. split_and!; [done| | |].
  - intros jid msg H. members H. destruct_or! H; try done. by apply (Hnb jid msg).
  - intros ms H. members H. destruct_or! H; try done. by apply (Hns ms).
  - by rewrite app_comm_cons, last_snoc.
Qed.

End DrainMore.

Lemma flush_keeps_jobs_witness :
  exists tr t' f' st' again,
    Frontend.flushOutbox 3 flaky_world 0 no_flags two_job_store
      = Some (tr, t', f', st', again) /\
    (Frontend.EvRemoveOutbox (Frontend.id (sample_job 1 100)) ∈ tr \/
     Frontend.queued st' (sample_job 1 100)).
Proof.
  eexists _, _, _, _, _.
  split; [vm_compute; reflexivity|].
  eapply (proj1 (flush_keeps_jobs 3 flaky_world 0 no_flags two_job_store
                   _ _ _ _ _ ltac:(vm_compute; reflexivity))).
  apply list_elem_of_further, list_elem_of_here.
Defined.

Lemma flush_empties_outbox_when_accepted_witness :
  exists tr t' f' st',
    Frontend.flushOutbox 2 accepting_world 0 no_flags two_job_store
      = Some (tr, t', f', st', false) /\
    Frontend.outbox st' = [].
Proof.
  destruct (flush_empties_outbox_when_accepted accepting_world 0 no_flags two_job_store
              eq_refl (fun _ => eq_refl))
    as (tr & t' & f' & st' & Hflush & Hnil & _).
  - intros t' req. exists (accepted_response req). eexists.
    split_and!; reflexivity.
  - intros j Hj. unfold two_job_store in Hj. simpl in Hj.
    rewrite !elem_of_cons, elem_of_nil in Hj.
    destruct Hj as [->|[->|[]]]; reflexivity.
  - exists tr, t', f', st'. split; [exact Hflush|exact Hnil].
Defined.

Section SingleFlightMore.
Import Frontend.
Local Open Scope list_scope.
Local Open Scope nat_scope.

(** X19. A drain during which no call arrives is followed by no re-run,
    whatever an earlier flush left in [flushQueued]: in any state the
    flusher can reach with no flush running, a call that finds the
    device online starts a drain, and when that drain ends after any
    number of its own steps, its [finally] calls nothing and no drain
    is in flight. *)
Theorem drain_without_calls_is_not_rerun
    (es : list Step) (s : Flusher) (n k : nat) (online : bool) :
  run idle es = Some (s, n) ->
  flushing (flags s) = false ->
  run s (Call true :: replicate k Resume ++ [DrainEnds online])
  = Some ({| flags := {| flushing := false; flushQueued := false |};
             draining := 0; reporting := reporting s |}, 0).
Proof.
  intros Hrun Hidle.
  assert (Hinv : one_drain s) by (by eapply (run_one_drain es idle)).
  unfold one_drain in Hinv. rewrite Hidle in Hinv.
  change (Call true :: replicate k Resume ++ [DrainEnds online])
    with ([Call true] ++ replicate k Resume ++ [DrainEnds online]).
  set (s1 := {| flags := {| flushing := true; flushQueued := false |};
                draining := 1; reporting := reporting s |}).
  assert (H1 : run s [Call true] = Some (s1, 0)).
  { simpl. unfold call, flushOutbox_enter. rewrite Hidle, Hinv. done. }
  assert (Hquiet : forallb ends_nothing (replicate k Resume) = true
                   /\ existsb is_call (replicate k Resume) = false).
  { induction k as [|k IH]; [done|]. simpl. by destruct IH. }
  destruct Hquiet as [Hall Hnone].
  pose proof (run_calls_during_drain (replicate k Resume) s1 eq_refl eq_refl Hall) as H2.
  rewrite Hnone in H2. simpl in H2.
  assert (H3 : run s1 [DrainEnds online]
               = Some ({| flags := {| flushing := false; flushQueued := false |};
                          draining := 0; reporting := reporting s |}, 0)) by done.
  rewrite (run_app _ _ _ _ _ _ _ H1 (run_app _ _ _ _ _ _ _ H2 H3)). done.
Qed.

End SingleFlightMore.

Lemma drain_without_calls_is_not_rerun_witness :
  (exists s n,
     Frontend.run Frontend.idle
       [Frontend.Call true; Frontend.Call true; Frontend.DrainEnds false] = Some (s, n) /\
     Frontend.flags s = {| Frontend.flushing := false; Frontend.flushQueued := true |} /\
     Frontend.run s ([Frontend.Call true; Frontend.Resume; Frontend.Resume;
                      Frontend.DrainEnds true])
     = Some ({| Frontend.flags := {| Frontend.flushing := false;
                                     Frontend.flushQueued := false |};
                Frontend.draining := 0; Frontend.reporting := Frontend.reporting s |},
             O)).
Proof.
  eexists _, _. split; [reflexivity|]. split; [reflexivity|].
  apply (drain_without_calls_is_not_rerun
           [Frontend.Call true; Frontend.Call true; Frontend.DrainEnds false]
           _ _ 2 true eq_refl eq_refl).
Defined.
